(** * A fault-tolerant recommendation service: circuit breaker and fallback composition

    Shallow embedding of [recommendation-service/index.js]: the
    [CircuitBreaker] class ([execute], [onSuccess], [onFailure],
    [getMetrics]), the stub [mockServiceCall] and the handler of
    [GET /recommendations/:userId].

    Conventions of the embedding.
    - Integer counters ([failureCount], [successCount], [trialCount]) are
      natural numbers [N]: they start at 0 and are only incremented or
      reset.  A JavaScript number holds every integer up to 2^53 exactly,
      and the development assumes that fewer than 2^53 calls are made.
    - The failure rate is a genuine binary64 computation in the source
      ([count / length * 100]); it is evaluated here with the IEEE-754
      operations of [SpecFloat] at precision 53, so that its rounding is
      the one of the running program.
    - [Date.now()] is an input: every function that reads the clock takes
      the instant read as an argument.
    - A promise is described by the delay after which it settles and by
      what it settles to; [Promise.race] against the timer compares the
      two delays.
    - One [execute] runs from its entry check to the bookkeeping of its
      outcome without interleaving.  The invariants are additionally
      proved over [reachable], which lets the entry checks and the
      outcomes of several requests interleave arbitrarily. *)

From Stdlib Require Import ZArith NArith List String Ascii Bool Lia.
From Stdlib Require Import SpecFloat DecimalString.
Import ListNotations.

Local Open Scope string_scope.
Local Open Scope Z_scope.

Set Warnings "-register-all".

(** ** JavaScript values *)

Inductive js_error : Type :=
| Error (message : string).

(** The completion of an awaited computation: a value or a thrown error. *)
Inductive completion (A : Type) : Type :=
| Return (v : A)
| Throw (e : js_error).
Arguments Return {A} v.
Arguments Throw {A} e.

Definition bind {A B : Type} (c : completion A) (k : A -> completion B) : completion B :=
  match c with
  | Return v => k v
  | Throw e => Throw e
  end.

Declare Scope js_scope.
Delimit Scope js_scope with js.
Notation "x <- c ;; k" := (bind c (fun x => k))
  (at level 61, c at next level, right associativity) : js_scope.

(** A promise handed to [Promise.race]: it settles [after] milliseconds,
    either fulfilled with a value or rejected with an error.  A promise
    that never settles behaves as one whose delay exceeds every timer. *)
Inductive settlement (A : Type) : Type :=
| Resolves (after : Z) (v : A)
| Rejects (after : Z) (e : js_error).
Arguments Resolves {A} after v.
Arguments Rejects {A} after e.

(** [await p] outside of a race. *)
Definition await {A : Type} (p : settlement A) : completion A :=
  match p with
  | Resolves _ v => Return v
  | Rejects _ e => Throw e
  end.

(** JSON data as the handlers build it; object fields keep source order. *)
Inductive json : Type :=
| JUndefined
| JNum (n : Z)
| JStr (s : string)
| JArr (items : list json)
| JObj (fields : list (string * json)).

Fixpoint lookup_field (k : string) (fields : list (string * json)) : option json :=
  match fields with
  | [] => None
  | (k', v) :: rest => if String.eqb k k' then Some v else lookup_field k rest
  end.

(** [obj.k], [None] when the response has no such key. *)
Definition field (k : string) (j : json) : option json :=
  match j with
  | JObj fields => lookup_field k fields
  | _ => None
  end.

Definition has_field (k : string) (j : json) : bool :=
  match field k j with
  | Some _ => true
  | None => false
  end.

(** ** Numbers: binary64 arithmetic *)

Module JsNumber.

Definition prec : Z := 53.
Definition emax : Z := 1024.

(** The double nearest to an integer (exact below 2^53). *)
Definition of_Z (z : Z) : spec_float := binary_normalize prec emax z 0 false.

Definition div (x y : spec_float) : spec_float := SFdiv prec emax x y.
Definition mul (x y : spec_float) : spec_float := SFmul prec emax x y.

(** [x >= y] *)
Definition geb (x y : spec_float) : bool := SFleb y x.

(** [n] with [n / 10] nearest to [m * 2^e], the larger one on a tie. *)
Definition nearest_tenths (m : positive) (e : Z) : Z :=
  if 0 <=? e then 10 * Z.pos m * 2 ^ e
  else (20 * Z.pos m + 2 ^ (- e)) / 2 ^ (1 - e).

Definition decimal (n : Z) : string := NilEmpty.string_of_uint (N.to_uint (Z.to_N n)).

(** [x.toFixed(1)] for [x] below 1e21. *)
Definition toFixed1 (x : spec_float) : string :=
  match x with
  | S754_nan => "NaN"
  | S754_infinity s => if s then "-Infinity" else "Infinity"
  | S754_zero _ => "0.0"
  | S754_finite s m e =>
      let n := nearest_tenths m e in
      (if s then "-" else "") ++ decimal (n / 10) ++ "." ++ decimal (n mod 10)
  end.

(** [setTimeout] clamps a delay outside of [1 .. 2^31-1] to 1. *)
Definition timer_delay (ms : Z) : Z :=
  if (1 <=? ms) && (ms <=? 2147483647) then ms else 1.

End JsNumber.

(** [o || d] for a numeric option: absent and 0 are falsy. *)
Definition or_default (o : option Z) (d : Z) : Z :=
  match o with
  | None => d
  | Some 0 => d
  | Some v => v
  end.

(** [null] converts to 0 in a subtraction. *)
Definition to_number (t : option Z) : Z :=
  match t with
  | None => 0
  | Some v => v
  end.

(** ** The circuit breaker *)

Inductive State : Type := CLOSED | OPEN | HALF_OPEN.

Definition State_eqb (a b : State) : bool :=
  match a, b with
  | CLOSED, CLOSED | OPEN, OPEN | HALF_OPEN, HALF_OPEN => true
  | _, _ => false
  end.

Definition State_name (s : State) : string :=
  match s with
  | CLOSED => "CLOSED"
  | OPEN => "OPEN"
  | HALF_OPEN => "HALF_OPEN"
  end.

(** An entry [{ success: b }] of [requestHistory]. *)
Record Request : Type := { success : bool }.

Record Options : Type := {
  opt_timeout : option Z;
  opt_failureThreshold : option Z;
  opt_failureRateThreshold : option Z;
  opt_failureRateWindow : option Z;
  opt_openDuration : option Z;
  opt_halfOpenTrials : option Z
}.

Record CircuitBreaker : Type := {
  name : string;
  state : State;
  failureCount : N;
  successCount : N;
  lastFailureTime : option Z;
  timeout : Z;
  failureThreshold : Z;
  failureRateThreshold : Z;
  failureRateWindow : Z;
  openDuration : Z;
  halfOpenTrials : Z;
  trialCount : N;
  requestHistory : list Request
}.

Definition new_CircuitBreaker (nm : string) (options : Options) : CircuitBreaker :=
  {| name := nm;
     state := CLOSED;
     failureCount := 0;
     successCount := 0;
     lastFailureTime := None;
     timeout := or_default (opt_timeout options) 2000;
     failureThreshold := or_default (opt_failureThreshold options) 5;
     failureRateThreshold := or_default (opt_failureRateThreshold options) 50;
     failureRateWindow := or_default (opt_failureRateWindow options) 10;
     openDuration := or_default (opt_openDuration options) 30000;
     halfOpenTrials := or_default (opt_halfOpenTrials options) 3;
     trialCount := 0;
     requestHistory := [] |}.

(** Field assignments [this.f = v]. *)
Definition set_state (s : State) (b : CircuitBreaker) : CircuitBreaker :=
  {| name := name b; state := s; failureCount := failureCount b;
     successCount := successCount b; lastFailureTime := lastFailureTime b;
     timeout := timeout b; failureThreshold := failureThreshold b;
     failureRateThreshold := failureRateThreshold b;
     failureRateWindow := failureRateWindow b; openDuration := openDuration b;
     halfOpenTrials := halfOpenTrials b; trialCount := trialCount b;
     requestHistory := requestHistory b |}.

Definition set_failureCount (n : N) (b : CircuitBreaker) : CircuitBreaker :=
  {| name := name b; state := state b; failureCount := n;
     successCount := successCount b; lastFailureTime := lastFailureTime b;
     timeout := timeout b; failureThreshold := failureThreshold b;
     failureRateThreshold := failureRateThreshold b;
     failureRateWindow := failureRateWindow b; openDuration := openDuration b;
     halfOpenTrials := halfOpenTrials b; trialCount := trialCount b;
     requestHistory := requestHistory b |}.

Definition set_successCount (n : N) (b : CircuitBreaker) : CircuitBreaker :=
  {| name := name b; state := state b; failureCount := failureCount b;
     successCount := n; lastFailureTime := lastFailureTime b;
     timeout := timeout b; failureThreshold := failureThreshold b;
     failureRateThreshold := failureRateThreshold b;
     failureRateWindow := failureRateWindow b; openDuration := openDuration b;
     halfOpenTrials := halfOpenTrials b; trialCount := trialCount b;
     requestHistory := requestHistory b |}.

Definition set_lastFailureTime (t : option Z) (b : CircuitBreaker) : CircuitBreaker :=
  {| name := name b; state := state b; failureCount := failureCount b;
     successCount := successCount b; lastFailureTime := t;
     timeout := timeout b; failureThreshold := failureThreshold b;
     failureRateThreshold := failureRateThreshold b;
     failureRateWindow := failureRateWindow b; openDuration := openDuration b;
     halfOpenTrials := halfOpenTrials b; trialCount := trialCount b;
     requestHistory := requestHistory b |}.

Definition set_trialCount (n : N) (b : CircuitBreaker) : CircuitBreaker :=
  {| name := name b; state := state b; failureCount := failureCount b;
     successCount := successCount b; lastFailureTime := lastFailureTime b;
     timeout := timeout b; failureThreshold := failureThreshold b;
     failureRateThreshold := failureRateThreshold b;
     failureRateWindow := failureRateWindow b; openDuration := openDuration b;
     halfOpenTrials := halfOpenTrials b; trialCount := n;
     requestHistory := requestHistory b |}.

Definition set_requestHistory (h : list Request) (b : CircuitBreaker) : CircuitBreaker :=
  {| name := name b; state := state b; failureCount := failureCount b;
     successCount := successCount b; lastFailureTime := lastFailureTime b;
     timeout := timeout b; failureThreshold := failureThreshold b;
     failureRateThreshold := failureRateThreshold b;
     failureRateWindow := failureRateWindow b; openDuration := openDuration b;
     halfOpenTrials := halfOpenTrials b; trialCount := trialCount b;
     requestHistory := h |}.

(** [h.length] as a number. *)
Definition len (h : list Request) : Z := Z.of_nat (List.length h).

(** [h.filter(r => !r.success)] *)
Definition failed (h : list Request) : list Request :=
  filter (fun r => negb (success r)) h.

(** [requestHistory.push(r)], then one [shift()] when the window overflows. *)
Definition record_outcome (ok : bool) (b : CircuitBreaker) : CircuitBreaker :=
  let h := (requestHistory b ++ [ {| success := ok |} ])%list in
  set_requestHistory (if len h >? failureRateWindow b then tl h else h) b.

(** [(failed / length) * 100] in binary64; the source guards the empty
    history, where the ratio would be NaN. *)
Definition ratio100 (h : list Request) : spec_float :=
  JsNumber.mul
    (JsNumber.div (JsNumber.of_Z (len (failed h))) (JsNumber.of_Z (len h)))
    (JsNumber.of_Z 100).

Definition failureRate (h : list Request) : spec_float :=
  if len h >? 0 then ratio100 h else JsNumber.of_Z 0.

Definition onSuccess (b0 : CircuitBreaker) : CircuitBreaker :=
  let b := set_successCount (successCount b0 + 1)%N b0 in
  let b := record_outcome true b in
  match state b with
  | HALF_OPEN =>
      let b := set_trialCount (trialCount b + 1)%N b in
      if Z.of_N (trialCount b) >=? halfOpenTrials b
      then set_failureCount 0%N (set_state CLOSED b)
      else b
  | CLOSED => set_failureCount 0%N b
  | OPEN => b
  end.

Definition onFailure (now : Z) (b0 : CircuitBreaker) : CircuitBreaker :=
  let b := set_failureCount (failureCount b0 + 1)%N b0 in
  let b := set_lastFailureTime (Some now) b in
  let b := record_outcome false b in
  match state b with
  | HALF_OPEN => set_trialCount 0%N (set_state OPEN b)
  | CLOSED =>
      let rate := failureRate (requestHistory b) in
      if Z.of_N (failureCount b) >=? failureThreshold b
      then set_state OPEN b
      else if JsNumber.geb rate (JsNumber.of_Z (failureRateThreshold b))
              && (len (requestHistory b) >=? failureRateWindow b)
           then set_state OPEN b
           else b
  | OPEN => b
  end.

Definition circuit_open_error (b : CircuitBreaker) : js_error :=
  Error ("Circuit breaker " ++ name b ++ " is OPEN").

Definition timeout_error : js_error := Error "Timeout".

(** The first statement of [execute]: an OPEN breaker either moves to
    HALF_OPEN once the cool-down has elapsed or throws. *)
Definition admission (now : Z) (b : CircuitBreaker) : completion CircuitBreaker :=
  match state b with
  | OPEN =>
      if now - to_number (lastFailureTime b) >? openDuration b
      then Return (set_trialCount 0%N (set_state HALF_OPEN b))
      else Throw (circuit_open_error b)
  | _ => Return b
  end.

(** [Promise.race([p, timer])]: the call wins when it settles no later
    than the timer fires (the timer is set after the call has started, so
    on equal delays the call settles first). *)
Definition race {A : Type} (p : settlement A) (ms : Z) : completion A :=
  match p with
  | Resolves after v =>
      if after <=? JsNumber.timer_delay ms then Return v else Throw timeout_error
  | Rejects after e =>
      if after <=? JsNumber.timer_delay ms then Throw e else Throw timeout_error
  end.

Section Execute.

(** The wrapped call [fn] may act on the world [W] around the breaker
    (a call counter on a stub, the state of a remote service). *)
Context {W A : Type}.

(** [execute(fn)]: [now] is the clock read on entry, [later] the
    clock read by [onFailure]. *)
Definition execute (now later : Z) (fn : W -> settlement A * W)
    (b : CircuitBreaker) (w : W) : completion A * CircuitBreaker * W :=
  match admission now b with
  | Throw e => (Throw e, b, w)
  | Return b1 =>
      let '(p, w1) := fn w in
      match race p (timeout b1) with
      | Return result => (Return result, onSuccess b1, w1)
      | Throw error => (Throw error, onFailure later b1, w1)
      end
  end.

End Execute.

(** [getMetrics()]: the snapshot and the breaker it leaves behind. *)
Record Metrics : Type := {
  m_state : State;
  m_failureRate : string;
  m_successfulCalls : N;
  m_failedCalls : N
}.

Definition getMetrics (b : CircuitBreaker) : Metrics * CircuitBreaker :=
  let failureRate :=
    if len (requestHistory b) >? 0
    then JsNumber.toFixed1 (ratio100 (requestHistory b))
    else "0.0" in
  ({| m_state := state b;
      m_failureRate := failureRate ++ "%";
      m_successfulCalls := successCount b;
      m_failedCalls := failureCount b |}, b).

(** The object that [res.json] serialises. *)
Definition Metrics_json (m : Metrics) : json :=
  JObj [ ("state", JStr (State_name (m_state m)));
         ("failureRate", JStr (m_failureRate m));
         ("successfulCalls", JNum (Z.of_N (m_successfulCalls m)));
         ("failedCalls", JNum (Z.of_N (m_failedCalls m))) ].

(** ** Sequences of calls through one breaker *)

Section Runs.

Context {W A : Type}.

(** One [execute]: the two clock readings and the wrapped call. *)
Record Call : Type := {
  at_entry : Z;
  at_failure : Z;
  fn : W -> settlement A * W
}.

Definition is_Return (c : completion A) : bool :=
  match c with Return _ => true | Throw _ => false end.

Definition is_Throw (c : completion A) : bool := negb (is_Return c).

(** The calls are made one after the other; the outcomes come back in
    call order, with the breaker and the world after the last call. *)
Fixpoint run (calls : list Call) (b : CircuitBreaker) (w : W)
    : list (completion A) * CircuitBreaker * W :=
  match calls with
  | [] => ([], b, w)
  | c :: rest =>
      let '(r, b1, w1) := execute (at_entry c) (at_failure c) (fn c) b w in
      let '(rs, b2, w2) := run rest b1 w1 in
      (r :: rs, b2, w2)
  end.

Definition outcomes (calls : list Call) (b : CircuitBreaker) (w : W) : list (completion A) :=
  fst (fst (run calls b w)).

Definition breaker_after (calls : list Call) (b : CircuitBreaker) (w : W) : CircuitBreaker :=
  snd (fst (run calls b w)).

End Runs.

Arguments Call : clear implicits.

(** A stub with a call counter: every invocation adds one to the counter
    and hands out the promise [p]. *)
Definition counting {A : Type} (p : settlement A) : nat -> settlement A * nat :=
  fun calls => (p, S calls).

(** Every state a breaker can be observed in: entry checks and outcome
    bookkeeping of any number of requests, in any order. *)
Inductive reachable (b0 : CircuitBreaker) : CircuitBreaker -> Prop :=
| reach_start : reachable b0 b0
| reach_admission : forall b now b1,
    reachable b0 b -> admission now b = Return b1 -> reachable b0 b1
| reach_onSuccess : forall b,
    reachable b0 b -> reachable b0 (onSuccess b)
| reach_onFailure : forall b now,
    reachable b0 b -> reachable b0 (onFailure now b).

(** The history window holds at most [failureRateWindow] entries. *)
Definition history_bounded (b : CircuitBreaker) : Prop :=
  len (requestHistory b) <= failureRateWindow b.

(** A HALF_OPEN breaker still has trials to go. *)
Definition trials_pending (b : CircuitBreaker) : Prop :=
  state b = HALF_OPEN -> Z.of_N (trialCount b) < halfOpenTrials b.

(** ** The recommendation service *)

Definition default_options : Options :=
  {| opt_timeout := Some 2000;
     opt_failureThreshold := Some 5;
     opt_failureRateThreshold := Some 50;
     opt_failureRateWindow := Some 10;
     opt_openDuration := Some 30000;
     opt_halfOpenTrials := Some 3 |}.

Record Breakers : Type := {
  userProfile : CircuitBreaker;
  content : CircuitBreaker
}.

(** [serviceStates]: the injected behaviour of ['user-profile'] and of
    ['content']. *)
Record ServiceStates : Type := {
  user_profile_service : string;
  content_service : string
}.

Record App : Type := {
  breakers : Breakers;
  serviceStates : ServiceStates
}.

Definition initial_App : App :=
  {| breakers :=
       {| userProfile := new_CircuitBreaker "userProfile" default_options;
          content := new_CircuitBreaker "content" default_options |};
     serviceStates :=
       {| user_profile_service := "normal"; content_service := "normal" |} |}.

Record Env : Type := {
  USER_PROFILE_URL : option string;
  CONTENT_URL : option string;
  TRENDING_URL : option string
}.

(** [process.env.X || d]: absent and empty are falsy. *)
Definition env_or (o : option string) (d : string) : string :=
  match o with
  | None => d
  | Some EmptyString => d
  | Some s => s
  end.

Definition mock_data (dataType : string) : json :=
  if String.eqb dataType "user" then
    JObj [ ("userId", JStr "123");
           ("preferences", JArr [JStr "Action"; JStr "Sci-Fi"]) ]
  else if String.eqb dataType "movies" then
    JArr [ JObj [ ("movieId", JNum 101); ("title", JStr "Inception");
                  ("genre", JStr "Sci-Fi") ];
           JObj [ ("movieId", JNum 102); ("title", JStr "The Dark Knight");
                  ("genre", JStr "Action") ] ]
  else if String.eqb dataType "trending" then
    JArr [ JObj [ ("movieId", JNum 99); ("title", JStr "Trending Movie 1") ] ]
  else JUndefined.

(** [mockServiceCall]: a slow service answers after 3000 ms, a failing one
    rejects at once. *)
Definition mockServiceCall (baseUrl behavior dataType : string) : settlement json :=
  if String.eqb behavior "slow" then Resolves 3000 (mock_data dataType)
  else if String.eqb behavior "fail" then Rejects 0 (Error "Service Error - 500")
  else Resolves 0 (mock_data dataType).

Record Response : Type := {
  status : Z;
  body : json
}.

(** [res.json(j)] *)
Definition res_json (j : json) : Response := {| status := 200; body := j |}.

(** The handler of [POST /simulate/:service/:behavior]. *)
Definition simulate (service behavior : string) (app : App) : Response * App :=
  if (existsb (String.eqb service) ["user-profile"; "content"]
      && existsb (String.eqb behavior) ["normal"; "slow"; "fail"])%bool
  then
    (res_json (JObj [ ("message", JStr (service ++ " set to " ++ behavior)) ]),
     {| breakers := breakers app;
        serviceStates :=
          if String.eqb service "user-profile"
          then {| user_profile_service := behavior;
                  content_service := content_service (serviceStates app) |}
          else {| user_profile_service := user_profile_service (serviceStates app);
                  content_service := behavior |} |})
  else
    ({| status := 400; body := JObj [ ("error", JStr "Invalid parameters") ] |}, app).

(** The four clock readings of one request. *)
Record Instants : Type := {
  profile_entry : Z;
  profile_failure : Z;
  content_entry : Z;
  content_failure : Z
}.

Definition default_preferences (userId : string) : json :=
  JObj [ ("userId", JStr userId);
         ("preferences", JArr [JStr "Comedy"; JStr "Family"]) ].

Definition error_message (e : js_error) : string :=
  match e with Error m => m end.

(** [breakers.userProfile.execute(() => mockServiceCall(userProfileURL,
    serviceStates['user-profile'], 'user'))] and its counterpart for the
    catalog: the thunk reads [serviceStates] when it is invoked. *)
Definition profile_call (env : Env) (clock : Instants) (app : App)
    : completion json * CircuitBreaker * ServiceStates :=
  execute (profile_entry clock) (profile_failure clock)
    (fun s => (mockServiceCall
                 (env_or (USER_PROFILE_URL env) "http://user-profile-service:8081")
                 (user_profile_service s) "user", s))
    (userProfile (breakers app)) (serviceStates app).

Definition catalog_call (env : Env) (clock : Instants) (app : App)
    : completion json * CircuitBreaker * ServiceStates :=
  execute (content_entry clock) (content_failure clock)
    (fun s => (mockServiceCall
                 (env_or (CONTENT_URL env) "http://content-service:8082")
                 (content_service s) "movies", s))
    (content (breakers app)) (serviceStates app).

(** What the [try]/[catch] around a protected call keeps. *)
Definition kept (r : completion json) (fallback : json) : json :=
  match r with
  | Return v => v
  | Throw _ => fallback
  end.

(** The handler of [GET /recommendations/:userId]. *)
Definition getRecommendations (env : Env) (clock : Instants) (userId : string)
    (app : App) : Response * App :=
  let trendingURL := env_or (TRENDING_URL env) "http://trending-service:8083" in
  let '(r1, bp, _) := profile_call env clock app in
  let userPreferences := kept r1 (default_preferences userId) in
  let userProfileFailed := is_Throw r1 in
  let '(r2, bc, _) := catalog_call env clock app in
  let recommendations := kept r2 (JArr []) in
  let contentFailed := is_Throw r2 in
  let app1 := {| breakers := {| userProfile := bp; content := bc |};
                 serviceStates := serviceStates app |} in
  let attempt : completion Response :=
    if State_eqb (state bp) OPEN && State_eqb (state bc) OPEN then
      (trending <- await (mockServiceCall trendingURL "normal" "trending") ;;
       Return (res_json (JObj
         [ ("message", JStr "Our recommendation service is temporarily degraded. Here are some trending movies.");
           ("trending", trending);
           ("fallback_triggered_for", JStr "user-profile-service, content-service") ])))%js
    else if State_eqb (state bp) OPEN then
      Return (res_json (JObj
        [ ("userPreferences", default_preferences userId);
          ("recommendations", recommendations);
          ("fallback_triggered_for", JStr "user-profile-service") ]))
    else if State_eqb (state bc) OPEN then
      (trending <- await (mockServiceCall trendingURL "normal" "trending") ;;
       Return (res_json (JObj
         [ ("userPreferences", userPreferences);
           ("trending", trending);
           ("message", JStr "Using trending movies as fallback");
           ("fallback_triggered_for", JStr "content-service") ])))%js
    else
      Return (res_json (JObj
        [ ("userPreferences", userPreferences);
          ("recommendations", recommendations) ])) in
  match attempt with
  | Return res => (res, app1)
  | Throw error =>
      ({| status := 500;
          body := JObj [ ("error", JStr (error_message error)) ] |}, app1)
  end.

(** The composition policy as the specification words it (section 4.2,
    step 3): the branch is chosen from the two breaker states, in
    priority order a, b, c, d. *)
Inductive Branch : Type :=
| BothOpen
| ProfileOpen
| CatalogOpen
| NoneOpen.

Definition spec_branch (profileState catalogState : State) : Branch :=
  match profileState, catalogState with
  | OPEN, OPEN => BothOpen
  | OPEN, _ => ProfileOpen
  | _, OPEN => CatalogOpen
  | _, _ => NoneOpen
  end.

(** The body of each branch, from the preferences and the catalog result
    kept after steps 1 and 2 and the trending list. *)
Definition spec_compose (userId : string) (preferences catalog trending : json)
    (br : Branch) : json :=
  match br with
  | BothOpen =>
      JObj [ ("message", JStr "Our recommendation service is temporarily degraded. Here are some trending movies.");
             ("trending", trending);
             ("fallback_triggered_for", JStr "user-profile-service, content-service") ]
  | ProfileOpen =>
      JObj [ ("userPreferences", default_preferences userId);
             ("recommendations", catalog);
             ("fallback_triggered_for", JStr "user-profile-service") ]
  | CatalogOpen =>
      JObj [ ("userPreferences", preferences);
             ("trending", trending);
             ("message", JStr "Using trending movies as fallback");
             ("fallback_triggered_for", JStr "content-service") ]
  | NoneOpen =>
      JObj [ ("userPreferences", preferences);
             ("recommendations", catalog) ]
  end.

(** ** The other endpoints and the application as a whole *)

(** The handler of [GET /health]. *)
Definition health (app : App) : Response * App :=
  (res_json (JObj [ ("status", JStr "healthy") ]), app).

(** The handler of [GET /metrics/circuit-breakers]. *)
Definition metrics (app : App) : Response * App :=
  let '(mp, bp) := getMetrics (userProfile (breakers app)) in
  let '(mc, bc) := getMetrics (content (breakers app)) in
  (res_json (JObj [ ("userProfileCircuitBreaker", Metrics_json mp);
                    ("contentCircuitBreaker", Metrics_json mc) ]),
   {| breakers := {| userProfile := bp; content := bc |};
      serviceStates := serviceStates app |}).

(** A request to one of the four routes, with the clock readings that the
    handler of a recommendation request makes. *)
Inductive HttpRequest : Type :=
| GET_health
| POST_simulate (service behavior : string)
| GET_recommendations (clock : Instants) (userId : string)
| GET_metrics.

Definition serve (env : Env) (r : HttpRequest) (app : App) : Response * App :=
  match r with
  | GET_health => health app
  | POST_simulate service behavior => simulate service behavior app
  | GET_recommendations clock userId => getRecommendations env clock userId app
  | GET_metrics => metrics app
  end.

(** The requests are served one after the other. *)
Fixpoint serve_all (env : Env) (rs : list HttpRequest) (app : App)
    : list Response * App :=
  match rs with
  | [] => ([], app)
  | r :: rest =>
      let '(res, app1) := serve env r app in
      let '(ress, app2) := serve_all env rest app1 in
      (res :: ress, app2)
  end.

(** The behaviours that [POST /simulate] accepts. *)
Definition recognised (behavior : string) : Prop :=
  behavior = "normal" \/ behavior = "slow" \/ behavior = "fail".

(** The services that [POST /simulate] accepts. *)
Definition simulated (service : string) : Prop :=
  service = "user-profile" \/ service = "content".

(** The protected profile call of a request as a call through the profile
    breaker, and likewise for the catalog. *)
Definition profile_Call (env : Env) (clock : Instants) : Call ServiceStates json :=
  {| at_entry := profile_entry clock;
     at_failure := profile_failure clock;
     fn := fun s => (mockServiceCall
                       (env_or (USER_PROFILE_URL env) "http://user-profile-service:8081")
                       (user_profile_service s) "user", s) |}.

Definition catalog_Call (env : Env) (clock : Instants) : Call ServiceStates json :=
  {| at_entry := content_entry clock;
     at_failure := content_failure clock;
     fn := fun s => (mockServiceCall
                       (env_or (CONTENT_URL env) "http://content-service:8082")
                       (content_service s) "movies", s) |}.

(** The recommendation requests of a list, in order. *)
Definition recommend (clocks : list (Instants * string)) : list HttpRequest :=
  map (fun cu => GET_recommendations (fst cu) (snd cu)) clocks.

(** ** Auxiliary notions for the statements *)

(** Two breakers with the same configuration. *)
Definition same_config (b b' : CircuitBreaker) : Prop :=
  name b' = name b /\ timeout b' = timeout b /\
  failureThreshold b' = failureThreshold b /\
  failureRateThreshold b' = failureRateThreshold b /\
  failureRateWindow b' = failureRateWindow b /\
  openDuration b' = openDuration b /\
  halfOpenTrials b' = halfOpenTrials b.

(** The history after an outcome is recorded, whatever the state. *)
Definition pushed (ok : bool) (b : CircuitBreaker) : list Request :=
  requestHistory (record_outcome ok b).

(** The history entry that [execute] records for an outcome, and the
    number of failed calls among outcomes. *)
Definition entry_of {A : Type} (r : completion A) : Request :=
  {| success := is_Return r |}.

Definition failures {A : Type} (rs : list (completion A)) : Z :=
  Z.of_nat (List.length (filter is_Throw rs)).

(** Sample calls on a trivial world: the remote service answers at once,
    fails at once, or answers after three seconds. *)
Definition ok_call (t : Z) : Call unit unit :=
  {| at_entry := t; at_failure := t; fn := fun w => (Resolves 0 tt, w) |}.

Definition failing_call (t : Z) : Call unit unit :=
  {| at_entry := t; at_failure := t;
     fn := fun w => (Rejects 0 (Error "Service Error - 500"), w) |}.

Definition slow_call (t : Z) : Call unit unit :=
  {| at_entry := t; at_failure := t + 2000; fn := fun w => (Resolves 3000 tt, w) |}.

(** The breaker of the profile service as the application creates it. *)
Definition fresh : CircuitBreaker := new_CircuitBreaker "userProfile" default_options.

(** The same breaker after five failures, a cool-down of more than thirty
    seconds and two successful trials: HALF_OPEN with one trial to go. *)
Definition on_probation : CircuitBreaker :=
  breaker_after
    [failing_call 0; failing_call 1; failing_call 2; failing_call 3;
     failing_call 4; ok_call 40000; ok_call 40001] fresh tt.

(** The profile breaker once five calls in a row have failed, the last
    one at instant 4. *)
Definition tripped : CircuitBreaker :=
  breaker_after
    [failing_call 0; failing_call 1; failing_call 2; failing_call 3;
     failing_call 4] fresh tt.

(** Ten calls, every other one failing: never five failures in a row. *)
Definition alternating : list (Call unit unit) :=
  [ok_call 0; failing_call 1; ok_call 2; failing_call 3; ok_call 4;
   failing_call 5; ok_call 6; failing_call 7; ok_call 8; failing_call 9].

(** The rate formula on the two counts it reads, [(failures / length) *
    100] in binary64. *)
Definition rate_of (failures length : Z) : spec_float :=
  JsNumber.mul (JsNumber.div (JsNumber.of_Z failures) (JsNumber.of_Z length))
    (JsNumber.of_Z 100).

(** Whether the test [rate >= threshold] of the program, on the rate [x]
    of [c] failures among [l] entries, says what the exact percentage
    says as soon as the percentage differs from the threshold [t]; [tf]
    is the threshold as a double. *)
Definition rate_test_ok (x tf : spec_float) (l c t : Z) : bool :=
  let g := JsNumber.geb x tf in
  implb g (t * l <=? 100 * c) && implb (t * l <? 100 * c) g.

(** The same for every history of [1 .. L] entries, every number of
    failures in it and every threshold in [0 .. T]. *)
Definition rate_table_ok (L T : nat) : bool :=
  let thresholds :=
    map (fun t => (Z.of_nat t, JsNumber.of_Z (Z.of_nat t))) (seq 0 (S T)) in
  forallb (fun l =>
    forallb (fun c =>
      let x := rate_of (Z.of_nat c) (Z.of_nat l) in
      forallb (fun tf => rate_test_ok x (snd tf) (Z.of_nat l) (Z.of_nat c) (fst tf))
              thresholds)
      (seq 0 (S l)))
    (seq 1 L).

(** A breaker with a window of fifty calls, a rate threshold of 58 and a
    consecutive-failure threshold out of reach, after twenty-one calls
    that returned and twenty-eight that failed: one call short of a full
    window. *)
Definition wide_options : Options :=
  {| opt_timeout := None;
     opt_failureThreshold := Some 1000;
     opt_failureRateThreshold := Some 58;
     opt_failureRateWindow := Some 50;
     opt_openDuration := None;
     opt_halfOpenTrials := None |}.

Definition window_nearly_full : CircuitBreaker :=
  breaker_after (repeat (ok_call 0) 21 ++ repeat (failing_call 0) 28)%list
    (new_CircuitBreaker "userProfile" wide_options) tt.

(** Ten calls through the profile breaker: five failures open the circuit,
    a sixth call is rejected, three trials after the cool-down close it
    again, and the tenth call fails. *)
Definition reopening : list (Call unit unit) :=
  [failing_call 0; failing_call 1; failing_call 2; failing_call 3;
   failing_call 4; failing_call 5; ok_call 40000; ok_call 40001;
   ok_call 40002; failing_call 40003].

(** [v] is what [o || d] gives: [d] for an absent or zero option, the
    option otherwise. *)
Definition takes_default (o : option Z) (d v : Z) : Prop :=
  (o = None \/ o = Some 0 -> v = d) /\
  (forall x, o = Some x -> x <> 0 -> v = x).

(** Sample requests: no URL is overridden, and every clock reading of a
    request made at [t] is [t]. *)
Definition no_env : Env :=
  {| USER_PROFILE_URL := None; CONTENT_URL := None; TRENDING_URL := None |}.

Definition at_instant (t : Z) : Instants :=
  {| profile_entry := t; profile_failure := t;
     content_entry := t; content_failure := t |}.

Definition request (t : Z) (app : App) : App :=
  snd (getRecommendations no_env (at_instant t) "42" app).

(** The profile service fails on a fresh application. *)
Definition profile_failing : App := snd (simulate "user-profile" "fail" initial_App).

(** The catalog service has failed five requests in a row, which opened
    its breaker, and the profile service now starts to fail. *)
Definition catalog_open_profile_failing : App :=
  snd (simulate "user-profile" "fail"
         (request 4 (request 3 (request 2 (request 1 (request 0
            (snd (simulate "content" "fail" initial_App)))))))).


(** What an application keeps whatever is asked of it: recognised
    behaviours, and two breakers with the configuration they were created
    with and a history within the window. *)
Definition App_ok (app : App) : Prop :=
  recognised (user_profile_service (serviceStates app)) /\
  recognised (content_service (serviceStates app)) /\
  same_config (userProfile (breakers initial_App)) (userProfile (breakers app)) /\
  same_config (content (breakers initial_App)) (content (breakers app)) /\
  history_bounded (userProfile (breakers app)) /\
  history_bounded (content (breakers app)).

(** * Properties *)

(** ** Bookkeeping lemmas *)

Lemma State_eqb_eq (a b : State) : State_eqb a b = true <-> a = b.
Proof. destruct a, b; simpl; split; congruence. Qed.

Lemma same_config_refl b : same_config b b.
Proof. unfold same_config; intuition. Qed.

Lemma same_config_trans b1 b2 b3 :
  same_config b1 b2 -> same_config b2 b3 -> same_config b1 b3.
Proof. unfold same_config; intuition congruence. Qed.

Lemma onSuccess_config b : same_config b (onSuccess b).
Proof.
  unfold same_config, onSuccess, record_outcome; simpl.
  destruct (state b); simpl; try (destruct (_ >=? _)); simpl; intuition.
Qed.

Lemma onFailure_config now b : same_config b (onFailure now b).
Proof.
  unfold same_config, onFailure, record_outcome; simpl.
  destruct (state b); simpl;
    try (destruct (_ >=? _); simpl; try destruct (_ && _)); simpl; intuition.
Qed.

Lemma admission_config now b b1 : admission now b = Return b1 -> same_config b b1.
Proof.
  unfold admission; destruct (state b); try destruct (_ >? _); intros H;
    inversion H; subst; unfold same_config; simpl; intuition.
Qed.

Lemma onSuccess_history b : requestHistory (onSuccess b) = pushed true b.
Proof.
  unfold onSuccess, pushed, record_outcome; simpl.
  destruct (state b); simpl; try destruct (_ >=? _); reflexivity.
Qed.

Lemma onFailure_history now b : requestHistory (onFailure now b) = pushed false b.
Proof.
  unfold onFailure, pushed, record_outcome; simpl.
  destruct (state b); simpl;
    try (destruct (_ >=? _); simpl; try destruct (_ && _)); reflexivity.
Qed.

Lemma onFailure_failureCount now b :
  failureCount (onFailure now b) = (failureCount b + 1)%N.
Proof.
  unfold onFailure, record_outcome; simpl.
  destruct (state b); simpl;
    try (destruct (_ >=? _); simpl; try destruct (_ && _)); reflexivity.
Qed.

Lemma admission_not_OPEN now b : state b <> OPEN -> admission now b = Return b.
Proof. unfold admission; destruct (state b); congruence. Qed.

Section ExecuteFacts.

Context {W A : Type}.
Implicit Types (fn : W -> settlement A * W) (r : completion A).

(** The three ways an [execute] can go. *)
Lemma execute_inv now later fn b w r b' w' :
  execute now later fn b w = (r, b', w') ->
  (admission now b = Throw (circuit_open_error b) /\
     r = Throw (circuit_open_error b) /\ b' = b /\ w' = w) \/
  (exists b1, admission now b = Return b1 /\ w' = snd (fn w) /\
     ((exists v, race (fst (fn w)) (timeout b1) = Return v /\
                 r = Return v /\ b' = onSuccess b1) \/
      (exists e, race (fst (fn w)) (timeout b1) = Throw e /\
                 r = Throw e /\ b' = onFailure later b1))).
Proof.
  unfold execute. intros H.
  destruct (admission now b) as [b1|e] eqn:G.
  - right. exists b1. destruct (fn w) as [p w1]; simpl.
    destruct (race p (timeout b1)) as [v|e] eqn:R; inversion H; subst;
      split; auto; split; auto; [left|right]; eauto.
  - left. inversion H; subst r b' w'.
    assert (e = circuit_open_error b) as ->.
    { unfold admission in G. destruct (state b); try discriminate.
      destruct (_ >? _); congruence. }
    auto.
Qed.

Lemma execute_config now later fn b w :
  same_config b (snd (fst (execute now later fn b w))).
Proof.
  destruct (execute now later fn b w) as [[r b'] w'] eqn:E; simpl.
  apply execute_inv in E.
  destruct E as [(_ & _ & -> & _) | (b1 & G & _ & [(v & _ & _ & ->) | (e & _ & _ & ->)])].
  - apply same_config_refl.
  - eapply same_config_trans; [eapply admission_config; eauto | apply onSuccess_config].
  - eapply same_config_trans; [eapply admission_config; eauto | apply onFailure_config].
Qed.

Lemma execute_reachable now later fn b w :
  reachable b (snd (fst (execute now later fn b w))).
Proof.
  destruct (execute now later fn b w) as [[r b'] w'] eqn:E; simpl.
  apply execute_inv in E.
  destruct E as [(_ & _ & -> & _) | (b1 & G & _ & [(v & _ & _ & ->) | (e & _ & _ & ->)])].
  - constructor.
  - apply reach_onSuccess. eapply reach_admission; [constructor | eauto].
  - apply reach_onFailure. eapply reach_admission; [constructor | eauto].
Qed.

End ExecuteFacts.

Lemma reachable_trans b0 b1 b2 :
  reachable b0 b1 -> reachable b1 b2 -> reachable b0 b2.
Proof.
  intros H01 H12. induction H12.
  - assumption.
  - eapply reach_admission; eauto.
  - apply reach_onSuccess; assumption.
  - apply reach_onFailure; assumption.
Qed.

Lemma reachable_config b0 b : reachable b0 b -> same_config b0 b.
Proof.
  induction 1.
  - apply same_config_refl.
  - eapply same_config_trans; [eassumption | eapply admission_config; eauto].
  - eapply same_config_trans; [eassumption | apply onSuccess_config].
  - eapply same_config_trans; [eassumption | apply onFailure_config].
Qed.

Section RunFacts.

Context {W A : Type}.
Implicit Types (calls : list (Call W A)).

Lemma run_app calls1 calls2 b w :
  run (calls1 ++ calls2)%list b w =
  let '(rs1, b1, w1) := run calls1 b w in
  let '(rs2, b2, w2) := run calls2 b1 w1 in
  ((rs1 ++ rs2)%list, b2, w2).
Proof.
  revert b w. induction calls1 as [|c calls1 IH]; intros b w; simpl.
  - destruct (run calls2 b w) as [[rs2 b2] w2]. reflexivity.
  - destruct (execute _ _ _ b w) as [[r b1] w1].
    rewrite IH.
    destruct (run calls1 b1 w1) as [[rs1 b1'] w1'].
    destruct (run calls2 b1' w1') as [[rs2 b2] w2]. reflexivity.
Qed.

Lemma run_reachable calls b w : reachable b (breaker_after calls b w).
Proof.
  unfold breaker_after. revert b w.
  induction calls as [|c calls IH]; intros b w; simpl.
  - constructor.
  - pose proof (execute_reachable (at_entry c) (at_failure c) (fn c) b w) as R.
    destruct (execute _ _ _ b w) as [[r b1] w1]; simpl in R.
    specialize (IH b1 w1).
    destruct (run calls b1 w1) as [[rs b2] w2]; simpl in *.
    eapply reachable_trans; eauto.
Qed.

Lemma outcomes_length calls b w :
  List.length (outcomes calls b w) = List.length calls.
Proof.
  unfold outcomes. revert b w.
  induction calls as [|c calls IH]; intros b w; simpl; auto.
  destruct (execute _ _ _ b w) as [[r b1] w1].
  specialize (IH b1 w1).
  destruct (run calls b1 w1) as [[rs b2] w2]; simpl in *. congruence.
Qed.

End RunFacts.

(** ** Entering [execute] on an OPEN breaker *)

Lemma admission_OPEN_cooling now b :
  state b = OPEN ->
  now - to_number (lastFailureTime b) <= openDuration b ->
  admission now b = Throw (circuit_open_error b).
Proof.
  intros S H. unfold admission. rewrite S.
  destruct (Z.gtb_spec (now - to_number (lastFailureTime b)) (openDuration b)); [lia | reflexivity].
Qed.

Lemma admission_OPEN_elapsed now b :
  state b = OPEN ->
  now - to_number (lastFailureTime b) > openDuration b ->
  admission now b = Return (set_trialCount 0%N (set_state HALF_OPEN b)).
Proof.
  intros S H. unfold admission. rewrite S.
  destruct (Z.gtb_spec (now - to_number (lastFailureTime b)) (openDuration b)); [reflexivity | lia].
Qed.

(** C2.  An OPEN breaker within its cool-down rejects [execute] with the
    circuit-open error and does not invoke the wrapped call: the result is
    the same for every call and the world the call would act on is left
    as it was, so a call counter on the stub does not move.  Once the
    cool-down has elapsed the breaker moves to HALF_OPEN on entry, with
    [trialCount = 0] and the call is invoked as the first trial: the
    outcome of [execute] is the outcome of the race (never the rejection
    on entry), the counter of the stub moves by one and a success
    leaves [trialCount = 1]. *)
Theorem open_breaker_rejects_then_tries :
  forall (W A : Type) (fn : W -> settlement A * W) (now later : Z)
         (b : CircuitBreaker) (w : W),
    state b = OPEN ->
    (now - to_number (lastFailureTime b) <= openDuration b ->
       execute now later fn b w = (Throw (circuit_open_error b), b, w) /\
       forall (p : settlement A) (n : nat),
         snd (execute now later (counting p) b n) = n) /\
    (now - to_number (lastFailureTime b) > openDuration b ->
       exists b1,
         admission now b = Return b1 /\
         state b1 = HALF_OPEN /\ trialCount b1 = 0%N /\
         execute now later fn b w =
           match race (fst (fn w)) (timeout b) with
           | Return v => (Return v, onSuccess b1, snd (fn w))
           | Throw e => (Throw e, onFailure later b1, snd (fn w))
           end /\
         (forall v, race (fst (fn w)) (timeout b) = Return v ->
                    trialCount (onSuccess b1) = 1%N) /\
         forall (p : settlement A) (n : nat),
           snd (execute now later (counting p) b n) = S n).
Proof.
  intros W A fn now later b w S. split; intros H.
  - split.
    + unfold execute. rewrite (admission_OPEN_cooling now b S H). reflexivity.
    + intros p n. unfold execute. rewrite (admission_OPEN_cooling now b S H). reflexivity.
  - exists (set_trialCount 0%N (set_state HALF_OPEN b)).
    pose proof (admission_OPEN_elapsed now b S H) as G.
    repeat split.
    + exact G.
    + unfold execute. rewrite G. destruct (fn w) as [p w1]; simpl.
      destruct (race p (timeout b)); reflexivity.
    + intros v _. unfold onSuccess, record_outcome; simpl.
      destruct (_ >=? _); reflexivity.
    + intros p n. unfold execute. rewrite G. unfold counting; simpl.
      destruct (race p (timeout b)); reflexivity.
Qed.

(** C9.  A rejection on entry is not recorded: the breaker that
    [execute] leaves behind has the history, the state, the counters and
    the instant of the last failure it had before the call. *)
Theorem rejection_not_recorded :
  forall (W A : Type) (fn : W -> settlement A * W) (now later : Z)
         (b : CircuitBreaker) (w : W),
    state b = OPEN ->
    now - to_number (lastFailureTime b) <= openDuration b ->
    let b' := snd (fst (execute now later fn b w)) in
    requestHistory b' = requestHistory b /\
    state b' = state b /\
    failureCount b' = failureCount b /\
    successCount b' = successCount b /\
    trialCount b' = trialCount b /\
    lastFailureTime b' = lastFailureTime b /\
    b' = b.
Proof.
  intros W A fn now later b w S H. unfold execute.
  rewrite (admission_OPEN_cooling now b S H). simpl. repeat split; reflexivity.
Qed.

(** ** Failures of a CLOSED breaker *)

Lemma onFailure_CLOSED now b :
  state b = CLOSED ->
  let b' := onFailure now b in
  (state b' = OPEN <->
     failureThreshold b <= Z.of_N (failureCount b') \/
     (failureRateWindow b <= len (requestHistory b') /\
      JsNumber.geb (failureRate (requestHistory b'))
                   (JsNumber.of_Z (failureRateThreshold b)) = true)) /\
  (state b' = OPEN \/ state b' = CLOSED).
Proof.
  intros S b'. subst b'.
  rewrite onFailure_history, onFailure_failureCount.
  unfold onFailure, pushed.
  cbn [state set_failureCount set_lastFailureTime record_outcome
       set_requestHistory failureCount failureThreshold requestHistory
       failureRateThreshold failureRateWindow].
  rewrite S.
  set (h := if _ >? _ then tl _ else _).
  destruct (Z.geb_spec (Z.of_N (failureCount b + 1)) (failureThreshold b)) as [G|G].
  - simpl. split; [split; auto | auto].
  - destruct (JsNumber.geb _ _) eqn:R; simpl.
    + destruct (Z.geb_spec (len h) (failureRateWindow b)) as [L|L]; simpl.
      * split; [split; auto | auto]. 
      * rewrite S. split; [split; [discriminate | intros [?|[? _]]; lia] | auto].
    + rewrite S. split; [split; [discriminate | intros [?|[_ ?]]; [lia | discriminate] ] | auto].
Qed.

Section FailingCalls.

Context {W A : Type}.
Implicit Types (fn : W -> settlement A * W) (calls : list (Call W A)).

(** A failing [execute] of a breaker that is not OPEN went through
    [onFailure]. *)
Lemma execute_Throw_not_OPEN now later fn b w e b' w' :
  state b <> OPEN ->
  execute now later fn b w = (Throw e, b', w') ->
  b' = onFailure later b.
Proof.
  intros S E. apply execute_inv in E. rewrite (admission_not_OPEN now b S) in E.
  destruct E as [(G & _) | (b1 & G & _ & [(v & _ & R & _) | (e' & _ & _ & ->)])];
    try discriminate.
  congruence.
Qed.

Lemma execute_Return_not_OPEN now later fn b w v b' w' :
  state b <> OPEN ->
  execute now later fn b w = (Return v, b', w') ->
  b' = onSuccess b.
Proof.
  intros S E. apply execute_inv in E. rewrite (admission_not_OPEN now b S) in E.
  destruct E as [(G & _) | (b1 & G & _ & [(v' & _ & _ & ->) | (e' & _ & R & _)])];
    try discriminate.
  congruence.
Qed.

(** A failing [execute] of an OPEN breaker leaves it OPEN, rejected or
    tried. *)
Lemma execute_Throw_OPEN now later fn b w e b' w' :
  state b = OPEN ->
  execute now later fn b w = (Throw e, b', w') ->
  state b' = OPEN.
Proof.
  intros S E. apply execute_inv in E.
  destruct E as [(_ & _ & -> & _) | (b1 & G & _ & [(v & _ & R & _) | (e' & _ & _ & ->)])];
    try discriminate; auto.
  unfold admission in G. rewrite S in G. destruct (_ >? _); inversion G; subst.
  reflexivity.
Qed.

(** Failing calls that make up the consecutive-failure threshold open a
    CLOSED breaker, and keep an OPEN breaker OPEN. *)
Lemma failing_calls_open calls : forall b w,
  forallb is_Throw (outcomes calls b w) = true ->
  state b = OPEN \/
  (state b = CLOSED /\ calls <> [] /\
   failureThreshold b <= Z.of_N (failureCount b) + Z.of_nat (List.length calls)) ->
  state (breaker_after calls b w) = OPEN.
Proof.
  unfold outcomes, breaker_after.
  induction calls as [|c calls IH]; intros b w F H; simpl in *.
  - destruct H as [H | (_ & H & _)]; [assumption | congruence].
  - pose proof (execute_config (at_entry c) (at_failure c) (fn c) b w) as C.
    destruct (execute _ _ _ b w) as [[r b1] w1] eqn:E.
    specialize (IH b1 w1).
    destruct (run calls b1 w1) as [[rs b2] w2]; simpl in *.
    apply andb_true_iff in F. destruct F as [Fr Frs].
    destruct r as [v|e]; [discriminate|].
    apply IH; [assumption|]. clear IH.
    destruct H as [H | (S & _ & T)].
    + left. eapply execute_Throw_OPEN; eauto.
    + apply execute_Throw_not_OPEN in E; [|congruence]. subst b1.
      destruct (onFailure_CLOSED (at_failure c) b S) as [Hiff Hst].
      destruct Hst as [Hst|Hst]; [left; assumption|].
      right. split; [assumption|].
      assert (~ failureThreshold b <= Z.of_N (failureCount (onFailure (at_failure c) b))) as Hlt.
      { intros Hge. assert (state (onFailure (at_failure c) b) = OPEN) by (apply Hiff; auto).
        congruence. }
      rewrite onFailure_failureCount in *.
      destruct C as (_ & _ & -> & _).
      destruct calls; [simpl in T; exfalso; lia|].
      split; [discriminate|]. simpl List.length in *. lia.
Qed.

End FailingCalls.

(** ** The failure rate over a window of ten *)

Lemma failed_le h : 0 <= len (failed h) <= len h.
Proof.
  unfold len, failed. pose proof (filter_length_le (fun r => negb (success r)) h). lia.
Qed.

(** Over ten recorded calls the binary64 rate reaches 50 exactly when at
    least five of them failed. *)
Lemma failureRate_window_10 h :
  len h = 10 ->
  (JsNumber.geb (failureRate h) (JsNumber.of_Z 50) = true <-> 5 <= len (failed h)).
Proof.
  intros L. pose proof (failed_le h) as B. rewrite L in B.
  unfold failureRate, ratio100. rewrite L.
  change (10 >? 0) with true. cbv iota.
  set (c := len (failed h)) in *. clearbody c.
  assert (c = 0 \/ c = 1 \/ c = 2 \/ c = 3 \/ c = 4 \/ c = 5 \/
          c = 6 \/ c = 7 \/ c = 8 \/ c = 9 \/ c = 10) as C by lia.
  repeat destruct C as [C|C]; subst c;
    (split; [ intros R; vm_compute in R; first [discriminate R | lia]
            | intros R; first [lia | vm_compute; reflexivity] ]).
Qed.

(** The rate is a rounded quantity: 29 failures out of 100 calls give a
    binary64 rate just below 29. *)
Example failureRate_29_of_100 :
  let h := (repeat {| success := false |} 29 ++ repeat {| success := true |} 71)%list in
  len h = 100 /\ len (failed h) = 29 /\
  JsNumber.geb (failureRate h) (JsNumber.of_Z 29) = false.
Proof. vm_compute. repeat split. Qed.

(** ** The history while the breaker stays CLOSED *)

Lemma len_app (h1 h2 : list Request) : len (h1 ++ h2)%list = len h1 + len h2.
Proof. unfold len. rewrite length_app. lia. Qed.

(** Recording one more outcome keeps the outcomes recorded so far as long
    as the window has room for them; only older entries are shifted out. *)
Lemma pushed_keeps_recent ok b pre es :
  requestHistory b = (pre ++ es)%list ->
  len pre + len es <= failureRateWindow b ->
  len es + 1 <= failureRateWindow b ->
  exists pre',
    pushed ok b = (pre' ++ es ++ [ {| success := ok |} ])%list /\
    len pre' + len es + 1 <= failureRateWindow b.
Proof.
  intros H B R. unfold pushed, record_outcome; simpl. rewrite H.
  rewrite !len_app. change (len [ {| success := ok |} ]) with 1.
  destruct (Z.gtb_spec (len pre + len es + 1) (failureRateWindow b)) as [G|G].
  - destruct pre as [|x pre].
    + change (len []) with 0 in G. lia.
    + exists pre. simpl. rewrite <- app_assoc. split; [reflexivity|].
      unfold len in *; simpl List.length in *. lia.
  - exists pre. rewrite <- app_assoc. split; [reflexivity | lia].
Qed.

Lemma failed_entries {A : Type} (rs : list (completion A)) :
  len (failed (map entry_of rs)) = failures rs.
Proof.
  unfold len, failures, failed. f_equal.
  induction rs as [|r rs IH]; simpl; auto.
  unfold is_Throw at 1. destruct (is_Return r); simpl; auto.
Qed.

Lemma onSuccess_CLOSED b :
  state b = CLOSED ->
  state (onSuccess b) = CLOSED /\ failureCount (onSuccess b) = 0%N.
Proof.
  intros S. unfold onSuccess. cbn [state record_outcome set_requestHistory set_successCount].
  rewrite S. simpl. auto.
Qed.

Section ClosedRuns.

Context {W A : Type}.
Implicit Types (calls : list (Call W A)).

Lemma run_snoc calls c b w :
  run (calls ++ [c])%list b w =
  let '(rs, b1, w1) := run calls b w in
  let '(r, b2, w2) := execute (at_entry c) (at_failure c) (fn c) b1 w1 in
  ((rs ++ [r])%list, b2, w2).
Proof.
  rewrite run_app. destruct (run calls b w) as [[rs b1] w1]. simpl.
  destruct (execute _ _ _ b1 w1) as [[r b2] w2]. reflexivity.
Qed.

(** Up to [failureRateWindow] calls through a CLOSED breaker: either the
    circuit opens at one of them, or the breaker is still CLOSED and its
    history ends with the outcomes of all these calls. *)
Lemma closed_run_history b w :
  state b = CLOSED ->
  history_bounded b ->
  forall calls,
    Z.of_nat (List.length calls) <= failureRateWindow b ->
    (exists k, (1 <= k <= List.length calls)%nat /\
               state (breaker_after (firstn k calls) b w) = OPEN) \/
    (state (breaker_after calls b w) = CLOSED /\
     exists pre,
       requestHistory (breaker_after calls b w) =
         (pre ++ map entry_of (outcomes calls b w))%list /\
       len pre + Z.of_nat (List.length calls) <= failureRateWindow b).
Proof.
  intros S HB calls. induction calls as [|c calls IH] using rev_ind; intros L.
  - right. unfold breaker_after, outcomes; simpl. split; [assumption|].
    exists (requestHistory b). rewrite app_nil_r. split; [reflexivity|].
    unfold history_bounded in HB. lia.
  - rewrite length_app in L |- *. simpl List.length in *.
    destruct IH as [(k & Hk & Hs) | (Hs & pre & Hh & Hl)]; [lia | |].
    + left. exists k. split; [lia|].
      rewrite firstn_app. replace (k - List.length calls)%nat with 0%nat by lia.
      simpl. rewrite app_nil_r. assumption.
    + pose proof (run_reachable calls b w) as RC. apply reachable_config in RC.
      pose proof (outcomes_length calls b w) as OL.
      unfold breaker_after, outcomes in *. rewrite run_snoc.
      destruct (run calls b w) as [[rs b1] w1] eqn:Erun; simpl in *.
      destruct (execute _ _ _ b1 w1) as [[r b2] w2] eqn:E; simpl.
      assert (W10 : failureRateWindow b1 = failureRateWindow b) by apply RC.
      destruct (pushed_keeps_recent (is_Return r) b1 pre (map entry_of rs))
        as (pre' & Hp & Hl'); auto.
      { unfold len in *. rewrite length_map, OL, W10. lia. }
      { unfold len in *. rewrite length_map, OL, W10. lia. }
      assert (Hlen : len pre' + Z.of_nat (List.length calls + 1) <= failureRateWindow b).
      { unfold len in *. rewrite length_map, OL, W10 in Hl'. lia. }
      destruct r as [v|e].
      * apply execute_Return_not_OPEN in E; [|congruence]. subst b2.
        right. split.
        -- apply onSuccess_CLOSED; assumption.
        -- exists pre'. rewrite onSuccess_history, map_app. simpl. auto.
      * pose proof E as E0.
        apply execute_Throw_not_OPEN in E; [|congruence]. subst b2.
        destruct (onFailure_CLOSED (at_failure c) b1 Hs) as [_ [Ho|Hc]].
        -- left. exists (List.length calls + 1)%nat. split; [lia|].
           rewrite firstn_all2 by (rewrite length_app; simpl; lia).
           rewrite run_snoc, Erun, E0. simpl. assumption.
        -- right. split; [assumption|].
           exists pre'. rewrite onFailure_history, map_app. simpl. auto.
Qed.

End ClosedRuns.

Section TenCalls.

Context {W A : Type}.
Implicit Types (calls : list (Call W A)).

(** Ten calls through a CLOSED breaker with a window of ten and a rate
    threshold of 50: when at least five fail and the last one fails, the
    breaker is OPEN after one of them. *)
Lemma ten_calls_open calls b w :
  state b = CLOSED ->
  failureRateWindow b = 10 ->
  failureRateThreshold b = 50 ->
  history_bounded b ->
  List.length calls = 10%nat ->
  (exists rs e, outcomes calls b w = (rs ++ [Throw e])%list) ->
  5 <= failures (outcomes calls b w) ->
  exists k, (1 <= k <= 10)%nat /\
            state (breaker_after (firstn k calls) b w) = OPEN.
Proof.
  intros S Win Thr HB Len (rs0 & e & Last) Five.
  destruct (exists_last (l := calls)) as (init & c & ->).
  { intros ->. discriminate Len. }
  rewrite length_app in Len. simpl in Len.
  destruct (closed_run_history b w S HB init) as [(k & Hk & Ho) | (Hs & pre & Hh & Hl)].
  { rewrite Win. lia. }
  - exists k. split; [lia|].
    rewrite firstn_app. replace (k - List.length init)%nat with 0%nat by lia.
    simpl. rewrite app_nil_r. assumption.
  - exists 10%nat. split; [lia|].
    rewrite firstn_all2 by (rewrite length_app; simpl; lia).
    pose proof (run_reachable init b w) as RC. apply reachable_config in RC.
    pose proof (outcomes_length init b w) as OL.
    unfold breaker_after, outcomes in *. rewrite run_snoc in *.
    destruct (run init b w) as [[rs b1] w1]; simpl in *.
    destruct (execute _ _ _ b1 w1) as [[r b2] w2] eqn:E; simpl in *.
    apply app_inj_tail in Last. destruct Last as [-> ->].
    apply execute_Throw_not_OPEN in E; [|congruence]. subst b2.
    destruct RC as (_ & _ & _ & T1 & W1 & _).
    destruct (pushed_keeps_recent false b1 pre (map entry_of rs0))
      as (pre' & Hp & Hl'); auto.
    { unfold len in *. rewrite length_map, OL, W1, Win. lia. }
    { unfold len in *. rewrite length_map, OL, W1, Win. lia. }
    assert (pre' = []) as ->.
    { destruct pre'; [reflexivity|]. unfold len in *.
      rewrite length_map, OL, W1, Win in Hl'. simpl List.length in Hl'. lia. }
    simpl in Hp.
    assert (Hh' : requestHistory (onFailure (at_failure c) b1) =
                  map entry_of (rs0 ++ [Throw e])).
    { rewrite onFailure_history, Hp, map_app. reflexivity. }
    apply (onFailure_CLOSED (at_failure c) b1 Hs). right.
    rewrite Hh', W1, Win, T1, Thr. split.
    + unfold len. rewrite length_map, length_app, OL. simpl. lia.
    + apply failureRate_window_10.
      * unfold len. rewrite length_map, length_app, OL. simpl. lia.
      * rewrite failed_entries. assumption.
Qed.

End TenCalls.

(** ** The computed rate and the exact percentage *)

Lemma failureRate_rate_of h :
  failureRate h =
  if len h >? 0 then rate_of (len (failed h)) (len h) else JsNumber.of_Z 0.
Proof. reflexivity. Qed.

(** What a table that checks out says of each of its entries. *)
Lemma rate_table_ok_spec (L T : nat) :
  rate_table_ok L T = true ->
  forall l c t : nat,
    (1 <= l <= L)%nat -> (c <= l)%nat -> (t <= T)%nat ->
    rate_test_ok (rate_of (Z.of_nat c) (Z.of_nat l)) (JsNumber.of_Z (Z.of_nat t))
                 (Z.of_nat l) (Z.of_nat c) (Z.of_nat t) = true.
Proof.
  unfold rate_table_ok. cbv zeta. intros H l c t Hl Hc Ht.
  rewrite forallb_forall in H.
  assert (Il : In l (seq 1 L)) by (apply in_seq; lia).
  specialize (H l Il). rewrite forallb_forall in H.
  assert (Ic : In c (seq 0 (S l))) by (apply in_seq; lia).
  specialize (H c Ic). rewrite forallb_forall in H.
  apply (H (Z.of_nat t, JsNumber.of_Z (Z.of_nat t))).
  apply in_map_iff. exists t. split; [reflexivity | apply in_seq; lia].
Qed.

(** Checked by evaluation: all histories of up to 100 entries, all
    thresholds from 0 to 100. *)
Lemma rate_table : rate_table_ok 100 100 = true.
Proof. vm_cast_no_check (eq_refl true). Qed.

Lemma rate_test_in_table (l c t : nat) :
  (1 <= l <= 100)%nat -> (c <= l)%nat -> (t <= 100)%nat ->
  rate_test_ok (rate_of (Z.of_nat c) (Z.of_nat l)) (JsNumber.of_Z (Z.of_nat t))
               (Z.of_nat l) (Z.of_nat c) (Z.of_nat t) = true.
Proof. exact (rate_table_ok_spec 100 100 rate_table l c t). Qed.

(** For a history of up to 100 entries and a threshold from 0 to 100, the
    test of the program never passes below the exact percentage and
    always passes above it; only a percentage equal to the threshold is
    left to rounding. *)
Lemma rate_agrees_with_percentage h thr :
  1 <= len h <= 100 ->
  0 <= thr <= 100 ->
  (JsNumber.geb (failureRate h) (JsNumber.of_Z thr) = true ->
     thr * len h <= 100 * len (failed h)) /\
  (thr * len h < 100 * len (failed h) ->
     JsNumber.geb (failureRate h) (JsNumber.of_Z thr) = true).
Proof.
  intros Hl Ht. pose proof (failed_le h) as Hc.
  rewrite failureRate_rate_of.
  destruct (Z.gtb_spec (len h) 0) as [_|N]; [|lia].
  unfold len in *.
  pose proof (rate_test_in_table (List.length h) (List.length (failed h)) (Z.to_nat thr))
    as T.
  rewrite Z2Nat.id in T by lia.
  specialize (T ltac:(lia) ltac:(lia) ltac:(lia)).
  unfold rate_test_ok in T. cbv zeta in T.
  apply andb_true_iff in T. destruct T as [T1 T2].
  destruct (JsNumber.geb _ _); simpl in *.
  - split; [intros _; apply Z.leb_le; assumption | reflexivity].
  - split; [discriminate|]. intros H. apply Z.ltb_lt in H. rewrite H in T2.
    discriminate T2.
Qed.

(** C1, as the code has it.  A failing [execute] of a CLOSED breaker
    records the failure (one more consecutive failure, one more history
    entry) and opens the circuit exactly when the consecutive failures
    have reached [failureThreshold], or the history holds
    [failureRateWindow] entries and the failure rate, computed in binary64
    as [(failures / length) * 100], has reached [failureRateThreshold];
    either disjunct suffices.  The computed rate passes the threshold
    whenever the exact percentage is above it and never when it is below
    (histories of up to 100 entries, thresholds from 0 to 100); a
    percentage equal to the threshold is left to rounding, and over ten
    entries a threshold of 50 is reached exactly from five failures on.
    With a threshold of five, any five failing calls in a row starting
    CLOSED leave the breaker OPEN, whatever its history.  With a window of
    ten and a rate threshold of 50, ten calls of which at least five fail,
    the last one among them, open the circuit at one of these calls: the
    breaker is OPEN after one of the ten, and after the tenth when it was
    CLOSED until then. *)
Theorem closed_breaker_trips :
  (forall (W A : Type) (fn : W -> settlement A * W) (now later : Z)
          (b b' : CircuitBreaker) (w w' : W) (e : js_error),
     state b = CLOSED ->
     execute now later fn b w = (Throw e, b', w') ->
     failureCount b' = (failureCount b + 1)%N /\
     requestHistory b' = pushed false b /\
     (state b' = OPEN <->
        failureThreshold b <= Z.of_N (failureCount b') \/
        (failureRateWindow b <= len (requestHistory b') /\
         JsNumber.geb (failureRate (requestHistory b'))
                      (JsNumber.of_Z (failureRateThreshold b)) = true))) /\
  (forall (W A : Type) (calls : list (Call W A)) (b : CircuitBreaker) (w : W),
     state b = CLOSED ->
     failureThreshold b = 5 ->
     List.length calls = 5%nat ->
     forallb is_Throw (outcomes calls b w) = true ->
     state (breaker_after calls b w) = OPEN) /\
  (forall (W A : Type) (calls : list (Call W A)) (b : CircuitBreaker) (w : W),
     state b = CLOSED ->
     failureRateWindow b = 10 ->
     failureRateThreshold b = 50 ->
     history_bounded b ->
     List.length calls = 10%nat ->
     (exists rs e, outcomes calls b w = (rs ++ [Throw e])%list) ->
     5 <= failures (outcomes calls b w) ->
     (exists k, (1 <= k <= 10)%nat /\
                state (breaker_after (firstn k calls) b w) = OPEN) /\
     ((forall k, (k < 10)%nat ->
                 state (breaker_after (firstn k calls) b w) = CLOSED) ->
      state (breaker_after calls b w) = OPEN)) /\
  (forall h : list Request,
     failureRate h =
     if len h >? 0
     then JsNumber.mul
            (JsNumber.div (JsNumber.of_Z (len (failed h))) (JsNumber.of_Z (len h)))
            (JsNumber.of_Z 100)
     else JsNumber.of_Z 0) /\
  (forall (h : list Request) (thr : Z),
     1 <= len h <= 100 ->
     0 <= thr <= 100 ->
     (JsNumber.geb (failureRate h) (JsNumber.of_Z thr) = true ->
        thr * len h <= 100 * len (failed h)) /\
     (thr * len h < 100 * len (failed h) ->
        JsNumber.geb (failureRate h) (JsNumber.of_Z thr) = true)) /\
  (forall h : list Request,
     len h = 10 ->
     (JsNumber.geb (failureRate h) (JsNumber.of_Z 50) = true <->
      5 <= len (failed h))).
Proof.
  split; [|split; [|split; [|split; [|split]]]];
    [ | | | intros h; reflexivity
      | exact rate_agrees_with_percentage
      | exact failureRate_window_10 ].
  - intros W A fn now later b b' w w' e S E.
    apply execute_Throw_not_OPEN in E; [|congruence]. subst b'.
    split; [apply onFailure_failureCount|].
    split; [apply onFailure_history|].
    apply (onFailure_CLOSED later b S).
  - intros W A calls b w S T L F.
    apply failing_calls_open; [assumption|].
    right. split; [assumption|]. split; [intros ->; discriminate L|].
    rewrite T, L. lia.
  - intros W A calls b w S Win Thr HB Len Last Five.
    destruct (ten_calls_open calls b w S Win Thr HB Len Last Five) as (k & Hk & Ho).
    split; [exists k; auto|].
    intros Closed.
    destruct (Nat.eq_dec k 10) as [->|Hne].
    + rewrite firstn_all2 in Ho by lia. assumption.
    + rewrite Closed in Ho by lia. discriminate Ho.
Qed.

(** Rejected calls are not recorded, so ten such calls need not end OPEN:
    the circuit opens at the fifth failure, cools down, closes after three
    trials, and the tenth call, the seventh to fail, leaves it CLOSED with
    nine entries in its history. *)
Example ten_calls_may_end_closed :
  let calls := [failing_call 0; failing_call 1; failing_call 2; failing_call 3;
                failing_call 4; failing_call 5; ok_call 40000; ok_call 40001;
                ok_call 40002; failing_call 40003] in
  state (breaker_after (firstn 5 calls) fresh tt) = OPEN /\
  nth 5 (outcomes calls fresh tt) (Return tt) = Throw (circuit_open_error fresh) /\
  failures (outcomes calls fresh tt) = 7 /\
  state (breaker_after calls fresh tt) = CLOSED /\
  len (requestHistory (breaker_after calls fresh tt)) = 9.
Proof. vm_compute. repeat split. Qed.

(** The statement of the specification fails twice.  Read with the exact
    percentage, the rate condition holds of a full window of fifty calls
    with twenty-nine failures and a threshold of 58 (exactly 58 percent),
    where the program computes 57.99999999999999 and leaves the circuit
    CLOSED.  And ten calls with seven failures, the last one among them,
    can leave the default breaker CLOSED: rejected calls are not
    recorded, and the circuit opened at the fifth call has closed again
    by the tenth. *)
Lemma trip_condition_as_stated_fails :
  ~ (forall (fn : unit -> settlement unit * unit) (now later : Z)
            (b b' : CircuitBreaker) (e : js_error),
       state b = CLOSED ->
       execute now later fn b tt = (Throw e, b', tt) ->
       (state b' = OPEN <->
          failureThreshold b <= Z.of_N (failureCount b') \/
          (failureRateWindow b <= len (requestHistory b') /\
           failureRateThreshold b * len (requestHistory b')
             <= 100 * len (failed (requestHistory b'))))) /\
  ~ (forall (calls : list (Call unit unit)) (b : CircuitBreaker),
       state b = CLOSED ->
       failureRateWindow b = 10 ->
       failureRateThreshold b = 50 ->
       history_bounded b ->
       List.length calls = 10%nat ->
       (exists rs e, outcomes calls b tt = (rs ++ [Throw e])%list) ->
       5 <= failures (outcomes calls b tt) ->
       state (breaker_after calls b tt) = OPEN).
Proof.
  split; intros H.
  - specialize (H (fn (failing_call 0)) 0 0 window_nearly_full
                  (breaker_after [failing_call 0] window_nearly_full tt)
                  (Error "Service Error - 500")).
    destruct H as [_ H]; [vm_compute; reflexivity | vm_compute; reflexivity |].
    assert (O : state (breaker_after [failing_call 0] window_nearly_full tt) = OPEN).
    { apply H. right. vm_compute. split; discriminate. }
    vm_compute in O. discriminate O.
  - specialize (H reopening fresh).
    assert (O : state (breaker_after reopening fresh tt) = OPEN).
    { apply H; try reflexivity.
      - vm_compute. discriminate.
      - exists (removelast (outcomes reopening fresh tt)), (Error "Service Error - 500").
        vm_compute. reflexivity.
      - vm_compute. discriminate. }
    vm_compute in O. discriminate O.
Qed.

(** ** Trials of a HALF_OPEN breaker *)

Lemma onSuccess_HALF_OPEN b :
  state b = HALF_OPEN ->
  let b' := onSuccess b in
  trialCount b' = (trialCount b + 1)%N /\
  ((halfOpenTrials b <= Z.of_N (trialCount b + 1) /\
    state b' = CLOSED /\ failureCount b' = 0%N) \/
   (Z.of_N (trialCount b + 1) < halfOpenTrials b /\ state b' = HALF_OPEN)).
Proof.
  intros S. unfold onSuccess.
  cbn [state record_outcome set_requestHistory set_successCount set_trialCount
       trialCount halfOpenTrials].
  rewrite S.
  destruct (Z.geb_spec (Z.of_N (trialCount b + 1)) (halfOpenTrials b)) as [G|G]; simpl.
  - split; [reflexivity|]. left. auto.
  - split; [reflexivity|]. right. auto.
Qed.

Lemma onFailure_HALF_OPEN now b :
  state b = HALF_OPEN ->
  state (onFailure now b) = OPEN /\ trialCount (onFailure now b) = 0%N.
Proof.
  intros S. unfold onFailure.
  cbn [state record_outcome set_requestHistory set_failureCount set_lastFailureTime].
  rewrite S. simpl. auto.
Qed.

Lemma onSuccess_OPEN b : state b = OPEN -> state (onSuccess b) = OPEN.
Proof.
  intros S. unfold onSuccess.
  cbn [state record_outcome set_requestHistory set_successCount].
  rewrite S. assumption.
Qed.

Lemma onFailure_OPEN now b : state b = OPEN -> state (onFailure now b) = OPEN.
Proof.
  intros S. unfold onFailure.
  cbn [state record_outcome set_requestHistory set_failureCount set_lastFailureTime].
  rewrite S. assumption.
Qed.

Lemma admission_state now b b1 :
  admission now b = Return b1 ->
  (state b <> OPEN /\ b1 = b) \/
  (state b = OPEN /\ state b1 = HALF_OPEN /\ trialCount b1 = 0%N).
Proof.
  unfold admission. destruct (state b) eqn:S; intros H.
  - left. split; congruence.
  - right. destruct (_ >? _); inversion H; subst. simpl. auto.
  - left. split; congruence.
Qed.

Lemma admission_Throw_OPEN now b e : admission now b = Throw e -> state b = OPEN.
Proof. unfold admission. destruct (state b); congruence. Qed.

Section Trials.

Context {W A : Type}.
Implicit Types (fn : W -> settlement A * W) (calls : list (Call W A)).

(** Successful calls that make up the required trials close a HALF_OPEN
    breaker, and further successes keep it CLOSED with no consecutive
    failure. *)
Lemma succeeding_calls_close calls : forall b w,
  forallb is_Return (outcomes calls b w) = true ->
  (state b = CLOSED /\ failureCount b = 0%N) \/
  (state b = HALF_OPEN /\ calls <> [] /\
   halfOpenTrials b <= Z.of_N (trialCount b) + Z.of_nat (List.length calls)) ->
  state (breaker_after calls b w) = CLOSED /\
  failureCount (breaker_after calls b w) = 0%N.
Proof.
  unfold outcomes, breaker_after.
  induction calls as [|c calls IH]; intros b w F H; simpl in *.
  - destruct H as [H | (_ & H & _)]; [assumption | congruence].
  - pose proof (execute_config (at_entry c) (at_failure c) (fn c) b w) as C.
    destruct (execute _ _ _ b w) as [[r b1] w1] eqn:E.
    specialize (IH b1 w1).
    destruct (run calls b1 w1) as [[rs b2] w2]; simpl in *.
    apply andb_true_iff in F. destruct F as [Fr Frs].
    destruct r as [v|e]; [|discriminate].
    apply IH; [assumption|]. clear IH.
    assert (NO : state b <> OPEN) by (destruct H as [[-> _]|[-> _]]; discriminate).
    apply execute_Return_not_OPEN in E; [|assumption]. subst b1.
    destruct H as [(S & _) | (S & _ & T)].
    + left. apply onSuccess_CLOSED; assumption.
    + destruct (onSuccess_HALF_OPEN b S) as [Ht [(_ & Hc & Hf) | (Hlt & Hh)]].
      * left. auto.
      * right. split; [assumption|].
        destruct C as (_ & _ & _ & _ & _ & _ & ->). rewrite Ht.
        destruct calls; [simpl in T; exfalso; lia|].
        split; [discriminate|]. simpl List.length in *. lia.
Qed.

(** After any [execute], a HALF_OPEN breaker still has trials to go. *)
Lemma execute_trials_pending now later fn b w :
  trials_pending (snd (fst (execute now later fn b w))).
Proof.
  pose proof (execute_config now later fn b w) as C.
  destruct (execute now later fn b w) as [[r b'] w'] eqn:E; simpl in *.
  apply execute_inv in E.
  destruct E as [(G & _ & -> & _) | (b1 & G & _ & HE)].
  { apply admission_Throw_OPEN in G. unfold trials_pending. congruence. }
  pose proof (admission_config now b b1 G) as C1.
  assert (S1 : state b1 = CLOSED \/ state b1 = HALF_OPEN).
  { destruct (admission_state now b b1 G) as [(NO & ->) | (_ & S1 & _)]; [|auto].
    destruct (state b); auto; congruence. }
  unfold trials_pending.
  destruct HE as [(v & _ & _ & ->) | (e & _ & _ & ->)].
  - destruct S1 as [S1|S1].
    + destruct (onSuccess_CLOSED b1 S1) as [-> _]. discriminate.
    + destruct (onSuccess_HALF_OPEN b1 S1) as [Ht [(_ & -> & _) | (Hlt & _)]];
        [discriminate|].
      intros _. rewrite Ht.
      destruct (onSuccess_config b1) as (_ & _ & _ & _ & _ & _ & ->). assumption.
  - destruct S1 as [S1|S1].
    + destruct (onFailure_CLOSED later b1 S1) as [_ [-> | ->]]; discriminate.
    + destruct (onFailure_HALF_OPEN later b1 S1) as [-> _]. discriminate.
Qed.

End Trials.

(** Over interleaved requests the same holds as soon as one trial at
    least is required. *)
Lemma reachable_trials_pending b0 b :
  1 <= halfOpenTrials b0 ->
  trials_pending b0 ->
  reachable b0 b ->
  trials_pending b.
Proof.
  intros N TP R. induction R as [|b now b1 R IH G|b R IH|b now R IH].
  - assumption.
  - destruct (admission_state now b b1 G) as [(_ & ->) | (_ & S1 & T1)]; [assumption|].
    intros _. rewrite T1.
    apply reachable_config in R. apply admission_config in G.
    destruct R as (_ & _ & _ & _ & _ & _ & R), G as (_ & _ & _ & _ & _ & _ & G).
    simpl. lia.
  - unfold trials_pending. destruct (state b) eqn:S.
    + destruct (onSuccess_CLOSED b S) as [-> _]. discriminate.
    + rewrite (onSuccess_OPEN b S). discriminate.
    + destruct (onSuccess_HALF_OPEN b S) as [Ht [(_ & -> & _) | (Hlt & _)]];
        [discriminate|].
      intros _. rewrite Ht.
      destruct (onSuccess_config b) as (_ & _ & _ & _ & _ & _ & ->). assumption.
  - unfold trials_pending. destruct (state b) eqn:S.
    + destruct (onFailure_CLOSED now b S) as [_ [-> | ->]]; discriminate.
    + rewrite (onFailure_OPEN now b S). discriminate.
    + destruct (onFailure_HALF_OPEN now b S) as [-> _]. discriminate.
Qed.

(** C3.  With [halfOpenTrials = N], [N] successful calls in a row close a
    HALF_OPEN breaker and leave it with no consecutive failure; a single
    failing call while HALF_OPEN moves it to OPEN and resets
    [trialCount].  Hence a breaker seen HALF_OPEN always has
    [trialCount < halfOpenTrials]: after every [execute], and in every
    state reached by interleaved requests. *)
Theorem half_open_trials :
  (forall (W A : Type) (calls : list (Call W A)) (b : CircuitBreaker) (w : W),
     state b = HALF_OPEN ->
     1 <= halfOpenTrials b ->
     Z.of_nat (List.length calls) = halfOpenTrials b ->
     forallb is_Return (outcomes calls b w) = true ->
     state (breaker_after calls b w) = CLOSED /\
     failureCount (breaker_after calls b w) = 0%N) /\
  (forall (W A : Type) (fn : W -> settlement A * W) (now later : Z)
          (b b' : CircuitBreaker) (w w' : W) (e : js_error),
     state b = HALF_OPEN ->
     execute now later fn b w = (Throw e, b', w') ->
     state b' = OPEN /\ trialCount b' = 0%N) /\
  (forall (W A : Type) (fn : W -> settlement A * W) (now later : Z)
          (b : CircuitBreaker) (w : W),
     trials_pending (snd (fst (execute now later fn b w)))) /\
  (forall b0 b : CircuitBreaker,
     1 <= halfOpenTrials b0 ->
     trials_pending b0 ->
     reachable b0 b ->
     trials_pending b).
Proof.
  split; [|split; [|split]].
  - intros W A calls b w S N L F.
    apply succeeding_calls_close; [assumption|].
    right. split; [assumption|]. split; [intros ->; simpl in L; lia | lia].
  - intros W A fn now later b b' w w' e S E.
    apply execute_Throw_not_OPEN in E; [|congruence]. subst b'.
    apply onFailure_HALF_OPEN; assumption.
  - intros W A fn now later b w. apply execute_trials_pending.
  - exact reachable_trials_pending.
Qed.

(** ** Closing the circuit *)

(** What each step does to [trialCount]. *)
Lemma onSuccess_trialCount b :
  trialCount (onSuccess b) =
  if State_eqb (state b) HALF_OPEN then (trialCount b + 1)%N else trialCount b.
Proof.
  unfold onSuccess, record_outcome; simpl.
  destruct (state b); simpl; try destruct (_ >=? _); reflexivity.
Qed.

Lemma onFailure_trialCount now b :
  trialCount (onFailure now b) =
  if State_eqb (state b) HALF_OPEN then 0%N else trialCount b.
Proof.
  unfold onFailure, record_outcome; simpl.
  destruct (state b); simpl;
    try (destruct (_ >=? _); simpl; try destruct (_ && _)); reflexivity.
Qed.

Section TrialCount.

Context {W A : Type}.
Implicit Types (fn : W -> settlement A * W) (calls : list (Call W A)).

(** The closing call. *)
Lemma closing_call fn now later b b1 b' w w' (v : A) :
  admission now b = Return b1 ->
  state b1 = HALF_OPEN ->
  execute now later fn b w = (Return v, b', w') ->
  state b' = CLOSED ->
  failureCount b' = 0%N /\
  trialCount b' = (trialCount b1 + 1)%N /\
  (1 <= trialCount b')%N /\
  halfOpenTrials b <= Z.of_N (trialCount b').
Proof.
  intros G S E C.
  apply execute_inv in E. rewrite G in E.
  destruct E as [(E & _) | (b2 & E & _ & [(v' & _ & _ & ->) | (e & _ & E' & _)])];
    try discriminate.
  inversion E; subst b2.
  destruct (onSuccess_HALF_OPEN b1 S) as [Ht [(Hge & _ & Hf) | (_ & Hs)]];
    [|congruence].
  apply admission_config in G. destruct G as (_ & _ & _ & _ & _ & _ & G).
  rewrite Ht. repeat split; [assumption | lia | lia].
Qed.

(** [trialCount] after one [execute], by the state the call finds. *)
Lemma execute_trialCount fn now later b w :
  let r := fst (fst (execute now later fn b w)) in
  let b' := snd (fst (execute now later fn b w)) in
  (state b = CLOSED -> trialCount b' = trialCount b) /\
  (state b = HALF_OPEN ->
     trialCount b' = if is_Return r then (trialCount b + 1)%N else 0%N) /\
  (state b = OPEN ->
     now - to_number (lastFailureTime b) <= openDuration b ->
     trialCount b' = trialCount b) /\
  (state b = OPEN ->
     now - to_number (lastFailureTime b) > openDuration b ->
     trialCount b' = if is_Return r then 1%N else 0%N).
Proof.
  cbv zeta. unfold execute. split; [|split; [|split]].
  - intros S. rewrite (admission_not_OPEN now b) by congruence.
    destruct (fn w) as [p w1]. destruct (race p (timeout b)); cbn [fst snd].
    + rewrite onSuccess_trialCount, S. reflexivity.
    + rewrite onFailure_trialCount, S. reflexivity.
  - intros S. rewrite (admission_not_OPEN now b) by congruence.
    destruct (fn w) as [p w1]. destruct (race p (timeout b)); cbn [fst snd].
    + rewrite onSuccess_trialCount, S. reflexivity.
    + rewrite onFailure_trialCount, S. reflexivity.
  - intros S H. rewrite (admission_OPEN_cooling now b S H). reflexivity.
  - intros S H. rewrite (admission_OPEN_elapsed now b S H).
    destruct (fn w) as [p w1]. destruct (race p _); cbn [fst snd].
    + rewrite onSuccess_trialCount. reflexivity.
    + rewrite onFailure_trialCount. reflexivity.
Qed.

(** While the calls find the breaker CLOSED, [trialCount] stays. *)
Lemma closed_run_trialCount calls : forall b w,
  (forall k, (k < List.length calls)%nat ->
             state (breaker_after (firstn k calls) b w) = CLOSED) ->
  trialCount (breaker_after calls b w) = trialCount b.
Proof.
  induction calls as [|c calls IH]; intros b w H.
  - reflexivity.
  - assert (Sb : state b = CLOSED) by (apply (H 0%nat); simpl; lia).
    destruct (execute_trialCount (fn c) (at_entry c) (at_failure c) b w) as (T & _).
    specialize (T Sb).
    assert (H' : forall k, (k < List.length calls)%nat ->
               state (breaker_after (firstn k calls)
                        (snd (fst (execute (at_entry c) (at_failure c) (fn c) b w)))
                        (snd (execute (at_entry c) (at_failure c) (fn c) b w))) = CLOSED).
    { intros k Hk. specialize (H (S k) ltac:(simpl; lia)).
      unfold breaker_after in *. simpl in H.
      destruct (execute _ _ _ b w) as [[r b1] w1]. simpl.
      destruct (run (firstn k calls) b1 w1) as [[rs b2] w2]. exact H. }
    specialize (IH _ _ H'). unfold breaker_after in *. simpl.
    destruct (execute _ _ _ b w) as [[r b1] w1]. simpl in *.
    destruct (run calls b1 w1) as [[rs b2] w2]. simpl in *. congruence.
Qed.

End TrialCount.

(** C4, as the code has it.  The successful trial that closes the circuit
    resets [failureCount] and leaves [trialCount] at the number of trials
    completed: one more than before the call, at least one and at least
    [halfOpenTrials].  [trialCount] goes back to 0 only when the breaker
    next leaves OPEN for HALF_OPEN, or when a trial fails: a call that
    finds the breaker CLOSED and a call that is rejected leave it as it
    is, a trial that returns adds one, and so do the bookkeeping steps
    taken one by one; the count therefore stays for as long as the calls
    find the breaker CLOSED. *)
Theorem closing_keeps_trialCount :
  (forall (W A : Type) (fn : W -> settlement A * W) (now later : Z)
          (b b1 b' : CircuitBreaker) (w w' : W) (v : A),
     admission now b = Return b1 ->
     state b1 = HALF_OPEN ->
     execute now later fn b w = (Return v, b', w') ->
     state b' = CLOSED ->
     failureCount b' = 0%N /\
     trialCount b' = (trialCount b1 + 1)%N /\
     (1 <= trialCount b')%N /\
     halfOpenTrials b <= Z.of_N (trialCount b')) /\
  (forall (W A : Type) (fn : W -> settlement A * W) (now later : Z)
          (b : CircuitBreaker) (w : W),
     let r := fst (fst (execute now later fn b w)) in
     let b' := snd (fst (execute now later fn b w)) in
     (state b = CLOSED -> trialCount b' = trialCount b) /\
     (state b = HALF_OPEN ->
        trialCount b' = if is_Return r then (trialCount b + 1)%N else 0%N) /\
     (state b = OPEN ->
        now - to_number (lastFailureTime b) <= openDuration b ->
        trialCount b' = trialCount b) /\
     (state b = OPEN ->
        now - to_number (lastFailureTime b) > openDuration b ->
        trialCount b' = if is_Return r then 1%N else 0%N)) /\
  (forall b : CircuitBreaker,
     trialCount (onSuccess b) =
     if State_eqb (state b) HALF_OPEN then (trialCount b + 1)%N else trialCount b) /\
  (forall (now : Z) (b : CircuitBreaker),
     trialCount (onFailure now b) =
     if State_eqb (state b) HALF_OPEN then 0%N else trialCount b) /\
  (forall (W A : Type) (calls : list (Call W A)) (b : CircuitBreaker) (w : W),
     (forall k, (k < List.length calls)%nat ->
                state (breaker_after (firstn k calls) b w) = CLOSED) ->
     trialCount (breaker_after calls b w) = trialCount b).
Proof.
  split; [|split; [|split; [|split]]].
  - intros W A fn now later b b1 b' w w' v. apply closing_call.
  - intros W A fn now later b w. apply execute_trialCount.
  - exact onSuccess_trialCount.
  - exact onFailure_trialCount.
  - intros W A calls b w. apply closed_run_trialCount.
Qed.

(** The statement of the specification fails on the profile breaker after five failures,
    the cool-down and two successful trials: the third trial closes the
    circuit and leaves [trialCount = 3]. *)
Lemma closing_zeroes_trialCount_fails :
  ~ (forall (fn : unit -> settlement unit * unit) (now later : Z)
            (b b' : CircuitBreaker) (v : unit),
       state b = HALF_OPEN ->
       execute now later fn b tt = (Return v, b', tt) ->
       state b' = CLOSED ->
       failureCount b' = 0%N /\ trialCount b' = 0%N).
Proof.
  intros H.
  specialize (H (fn (ok_call 40002)) 40002 40002 on_probation
                (breaker_after [ok_call 40002] on_probation tt) tt).
  assert (X : trialCount (breaker_after [ok_call 40002] on_probation tt) = 3%N)
    by (vm_compute; reflexivity).
  destruct H as [_ H]; [vm_compute; reflexivity .. | ].
  rewrite X in H. discriminate H.
Qed.

(** ** The bound on the history *)

Lemma pushed_bounded ok b :
  history_bounded b -> len (pushed ok b) <= failureRateWindow b.
Proof.
  unfold history_bounded, pushed, record_outcome; simpl. intros H.
  set (h := requestHistory b) in *.
  destruct (Z.gtb_spec (len (h ++ [ {| success := ok |} ])) (failureRateWindow b)) as [G|G];
    [|lia].
  destruct h as [|x h]; simpl.
  - change (len []) with 0. change (len []) with 0 in H. lia.
  - unfold len in *. rewrite length_app in *. simpl List.length in *. lia.
Qed.

Lemma reachable_history_bounded b0 b :
  history_bounded b0 -> reachable b0 b -> history_bounded b.
Proof.
  intros HB R. induction R as [|b now b1 R IH G|b R IH|b now R IH].
  - assumption.
  - destruct (admission_state now b b1 G) as [(_ & ->) | (S & _)]; [assumption|].
    unfold admission in G. rewrite S in G. destruct (_ >? _); inversion G; subst.
    exact IH.
  - unfold history_bounded. rewrite onSuccess_history.
    destruct (onSuccess_config b) as (_ & _ & _ & _ & -> & _).
    apply pushed_bounded; assumption.
  - unfold history_bounded. rewrite onFailure_history.
    destruct (onFailure_config now b) as (_ & _ & _ & _ & -> & _).
    apply pushed_bounded; assumption.
Qed.

(** C5.  The history never holds more than [failureRateWindow] entries:
    the bound is kept by every sequence of [execute] calls, whether they
    succeed, fail, time out or are rejected, and by every interleaving of
    the entry checks and outcomes of concurrent requests; it holds from the
    construction of the breaker on, the window being a size (not
    negative). *)
Theorem history_never_exceeds_window :
  (forall (W A : Type) (calls : list (Call W A)) (b : CircuitBreaker) (w : W),
     history_bounded b ->
     history_bounded (breaker_after calls b w)) /\
  (forall b0 b : CircuitBreaker,
     history_bounded b0 -> reachable b0 b -> history_bounded b) /\
  (forall (W A : Type) (calls : list (Call W A)) (nm : string)
          (options : Options) (w : W),
     0 <= or_default (opt_failureRateWindow options) 10 ->
     len (requestHistory (breaker_after calls (new_CircuitBreaker nm options) w))
       <= or_default (opt_failureRateWindow options) 10).
Proof.
  split; [|split].
  - intros W A calls b w HB.
    eapply reachable_history_bounded; [eassumption | apply run_reachable].
  - exact reachable_history_bounded.
  - intros W A calls nm options w H.
    pose proof (run_reachable calls (new_CircuitBreaker nm options) w) as R.
    pose proof (reachable_config _ _ R) as (_ & _ & _ & _ & C & _).
    simpl in C. rewrite <- C.
    eapply reachable_history_bounded; [|exact R].
    unfold history_bounded. simpl. exact H.
Qed.

(** ** The recommendations handler *)

(** The trending source is not behind a breaker and its stub always
    answers. *)
Lemma trending_answers url :
  await (mockServiceCall url "normal" "trending") = Return (mock_data "trending").
Proof. reflexivity. Qed.

(** The handler in one equation: the breakers after the two protected
    calls, and the body composed from their states. *)
Lemma getRecommendations_eq env clock userId app :
  let r1 := fst (fst (profile_call env clock app)) in
  let bp := snd (fst (profile_call env clock app)) in
  let r2 := fst (fst (catalog_call env clock app)) in
  let bc := snd (fst (catalog_call env clock app)) in
  getRecommendations env clock userId app =
  (res_json (spec_compose userId
               (kept r1 (default_preferences userId)) (kept r2 (JArr []))
               (mock_data "trending") (spec_branch (state bp) (state bc))),
   {| breakers := {| userProfile := bp; content := bc |};
      serviceStates := serviceStates app |}).
Proof.
  unfold getRecommendations.
  destruct (profile_call env clock app) as [[r1 bp] s1].
  destruct (catalog_call env clock app) as [[r2 bc] s2].
  cbn [fst snd].
  destruct (state bp), (state bc); reflexivity.
Qed.

(** What the stub hands to a protected call that returns. *)
Lemma race_mock_Return url behavior dataType ms v :
  race (mockServiceCall url behavior dataType) ms = Return v ->
  v = mock_data dataType.
Proof.
  unfold mockServiceCall, race.
  destruct (String.eqb behavior "slow");
    [|destruct (String.eqb behavior "fail")];
    destruct (_ <=? _); congruence.
Qed.

Lemma profile_call_Return env clock app v :
  fst (fst (profile_call env clock app)) = Return v -> v = mock_data "user".
Proof.
  unfold profile_call.
  destruct (execute _ _ _ _ _) as [[r b'] w'] eqn:E. simpl. intros ->.
  apply execute_inv in E.
  destruct E as [(_ & E & _) | (b1 & _ & _ & [(v' & R & E & _) | (e & _ & E & _)])];
    try discriminate.
  inversion E; subst v'. simpl in R. eapply race_mock_Return; eauto.
Qed.

Lemma catalog_call_Return env clock app v :
  fst (fst (catalog_call env clock app)) = Return v -> v = mock_data "movies".
Proof.
  unfold catalog_call.
  destruct (execute _ _ _ _ _) as [[r b'] w'] eqn:E. simpl. intros ->.
  apply execute_inv in E.
  destruct E as [(_ & E & _) | (b1 & _ & _ & [(v' & R & E & _) | (e & _ & E & _)])];
    try discriminate.
  inversion E; subst v'. simpl in R. eapply race_mock_Return; eauto.
Qed.

(** C6, as the code has it.  The handler answers 200 with the body that
    the composition policy selects from the two breaker states read after
    both protected calls have settled: trending list and combined
    annotation when both are OPEN; else default preferences, the catalog
    result kept and the profile annotation when the profile breaker is
    OPEN; else the preferences kept, a trending list and the catalog
    annotation when the catalog breaker is OPEN; otherwise the preferences
    and the catalog result kept, without annotation.  What is kept is the
    real result of a call that returned and the substituted fallback of a
    call that failed; the failure of this request's calls plays no other
    part in the choice. *)
Theorem composition_follows_breaker_states :
  forall (env : Env) (clock : Instants) (userId : string) (app : App),
    let r1 := fst (fst (profile_call env clock app)) in
    let r2 := fst (fst (catalog_call env clock app)) in
    let res := fst (getRecommendations env clock userId app) in
    let app' := snd (getRecommendations env clock userId app) in
    userProfile (breakers app') = snd (fst (profile_call env clock app)) /\
    content (breakers app') = snd (fst (catalog_call env clock app)) /\
    res = res_json (spec_compose userId
                      (kept r1 (default_preferences userId)) (kept r2 (JArr []))
                      (mock_data "trending")
                      (spec_branch (state (userProfile (breakers app')))
                                   (state (content (breakers app'))))) /\
    (forall v, r1 = Return v ->
       kept r1 (default_preferences userId) = mock_data "user") /\
    (forall v, r2 = Return v -> kept r2 (JArr []) = mock_data "movies") /\
    (forall e, r1 = Throw e ->
       kept r1 (default_preferences userId) = default_preferences userId) /\
    (forall e, r2 = Throw e -> kept r2 (JArr []) = JArr []).
Proof.
  intros env clock userId app. cbv zeta.
  rewrite getRecommendations_eq. cbn [fst snd breakers userProfile content].
  repeat split.
  - intros v H. rewrite H. simpl. eapply profile_call_Return; eauto.
  - intros v H. rewrite H. simpl. eapply catalog_call_Return; eauto.
  - intros e ->. reflexivity.
  - intros e ->. reflexivity.
Qed.

(** The statement of the specification fails when the profile service fails once: no
    breaker is OPEN after the request, and the body carries the default
    preferences, not the real ones. *)
Lemma otherwise_branch_not_always_real :
  ~ (forall (env : Env) (clock : Instants) (userId : string) (app : App),
       let res := fst (getRecommendations env clock userId app) in
       let app' := snd (getRecommendations env clock userId app) in
       state (userProfile (breakers app')) <> OPEN ->
       state (content (breakers app')) <> OPEN ->
       body res = JObj [ ("userPreferences", mock_data "user");
                         ("recommendations", mock_data "movies") ]).
Proof.
  intros H.
  specialize (H no_env (at_instant 0) "42" profile_failing).
  cbv zeta in H.
  assert (X : field "userPreferences"
                (body (fst (getRecommendations no_env (at_instant 0) "42" profile_failing)))
              = Some (default_preferences "42")) by (vm_compute; reflexivity).
  rewrite H in X; [| vm_compute; discriminate | vm_compute; discriminate].
  vm_compute in X. discriminate X.
Qed.

(** The three kinds of failure of a protected call: rejected by the OPEN
    breaker, timed out, failed downstream. *)
Example three_kinds_of_failure :
  fst (fst (execute 5 5 (fn (ok_call 5)) tripped tt))
    = Throw (Error "Circuit breaker userProfile is OPEN") /\
  fst (fst (execute 0 2000 (fn (slow_call 0)) fresh tt)) = Throw (Error "Timeout") /\
  fst (fst (execute 0 0 (fn (failing_call 0)) fresh tt))
    = Throw (Error "Service Error - 500").
Proof. vm_compute. repeat split. Qed.


Lemma execute_Throw_state {W A : Type} (fn : W -> settlement A * W)
    now later b w e b' w' :
  execute now later fn b w = (Throw e, b', w') ->
  state b' = OPEN \/ state b' = CLOSED.
Proof.
  intros E. destruct (state b) eqn:S.
  - apply execute_Throw_not_OPEN in E; [|congruence]. subst b'.
    apply (onFailure_CLOSED later b S).
  - left. eapply execute_Throw_OPEN; eauto.
  - apply execute_Throw_not_OPEN in E; [|congruence]. subst b'.
    left. apply onFailure_HALF_OPEN; assumption.
Qed.

(** C10, as the code has it.  When the profile call of a request fails
    and the profile breaker is not OPEN afterwards (it is then CLOSED),
    the body carries the default preferences and its annotation does not
    name the profile service: there is no annotation at all unless the
    catalog breaker is OPEN, in which case it names the catalog service
    alone.  Likewise a failed catalog call whose breaker is not OPEN
    afterwards puts the empty recommendation list in the body, with no
    annotation unless the profile breaker is OPEN, which then is the only
    one named. *)
Theorem unflagged_fallback :
  forall (env : Env) (clock : Instants) (userId : string) (app : App),
    let r1 := fst (fst (profile_call env clock app)) in
    let r2 := fst (fst (catalog_call env clock app)) in
    let res := fst (getRecommendations env clock userId app) in
    let app' := snd (getRecommendations env clock userId app) in
    let sp := state (userProfile (breakers app')) in
    let sc := state (content (breakers app')) in
    (is_Throw r1 = true -> sp <> OPEN ->
       sp = CLOSED /\
       field "userPreferences" (body res) = Some (default_preferences userId) /\
       field "fallback_triggered_for" (body res) =
         if State_eqb sc OPEN then Some (JStr "content-service") else None) /\
    (is_Throw r2 = true -> sc <> OPEN ->
       sc = CLOSED /\
       field "recommendations" (body res) = Some (JArr []) /\
       field "fallback_triggered_for" (body res) =
         if State_eqb sp OPEN then Some (JStr "user-profile-service") else None).
Proof.
  intros env clock userId app. cbv zeta.
  rewrite getRecommendations_eq. cbn [fst snd breakers userProfile content].
  split; intros T NO.
  - split.
    + unfold profile_call in *.
      destruct (execute _ _ _ _ _) as [[r b'] w'] eqn:E. simpl in *.
      destruct r as [v|e]; [discriminate|].
      apply execute_Throw_state in E. destruct E; congruence.
    + destruct (fst (fst (profile_call env clock app))) as [v|e]; [discriminate|].
      destruct (state (snd (fst (profile_call env clock app)))); try congruence;
        destruct (state (snd (fst (catalog_call env clock app)))); simpl; auto.
  - split.
    + unfold catalog_call in *.
      destruct (execute _ _ _ _ _) as [[r b'] w'] eqn:E. simpl in *.
      destruct r as [v|e]; [discriminate|].
      apply execute_Throw_state in E. destruct E; congruence.
    + destruct (fst (fst (catalog_call env clock app))) as [v|e]; [discriminate|].
      destruct (state (snd (fst (catalog_call env clock app)))); try congruence;
        destruct (state (snd (fst (profile_call env clock app)))); simpl; auto.
Qed.

(** The statement of the specification fails once the catalog breaker is OPEN: the
    profile call fails for the first time, its breaker stays CLOSED, and
    the body is annotated, for the catalog service. *)
Lemma unflagged_fallback_may_be_annotated :
  ~ (forall (env : Env) (clock : Instants) (userId : string) (app : App),
       let r1 := fst (fst (profile_call env clock app)) in
       let res := fst (getRecommendations env clock userId app) in
       let app' := snd (getRecommendations env clock userId app) in
       is_Throw r1 = true ->
       state (userProfile (breakers app')) <> OPEN ->
       field "userPreferences" (body res) = Some (default_preferences userId) /\
       has_field "fallback_triggered_for" (body res) = false).
Proof.
  intros H.
  specialize (H no_env (at_instant 5) "42" catalog_open_profile_failing).
  cbv zeta in H.
  destruct H as [_ H]; [vm_compute; reflexivity | vm_compute; discriminate |].
  vm_compute in H. discriminate H.
Qed.

(** ** The metrics snapshot *)

(** [toFixed(1)] picks the nearest number of tenths, the larger one on a
    tie: for a double [m * 2^e] with [e < 0], the tenths [n] it prints are
    within half a tenth of [10 * m * 2^e]. *)
Lemma nearest_tenths_nearest (m : positive) (e : Z) :
  e < 0 ->
  let n := JsNumber.nearest_tenths m e in
  2 * n * 2 ^ (- e) - 2 ^ (- e) <= 20 * Z.pos m < 2 * n * 2 ^ (- e) + 2 ^ (- e).
Proof.
  intros He n. subst n. unfold JsNumber.nearest_tenths.
  destruct (Z.leb_spec 0 e) as [H|_]; [lia|].
  replace (1 - e) with (Z.succ (- e)) by lia.
  rewrite Z.pow_succ_r by lia.
  assert (D : 0 < 2 ^ (- e)) by (apply Z.pow_pos_nonneg; lia).
  set (d := 2 ^ (- e)) in *.
  pose proof (Z.div_mod (20 * Z.pos m + d) (2 * d)) as E.
  pose proof (Z.mod_pos_bound (20 * Z.pos m + d) (2 * d)) as B.
  set (q := (20 * Z.pos m + d) / (2 * d)) in *.
  nia.
Qed.

(** C8, as the code has it.  [getMetrics] leaves the breaker as it is and
    reports four fields: the state, the failure rate of the history as a
    string with one decimal followed by a percent sign (["0.0%"] for an
    empty history), [successCount] and [failureCount]; the object sent has
    exactly the keys [state], [failureRate], [successfulCalls] and
    [failedCalls]. *)
Theorem getMetrics_snapshot :
  forall b : CircuitBreaker,
    let m := fst (getMetrics b) in
    snd (getMetrics b) = b /\
    m_state m = state b /\
    m_failureRate m = JsNumber.toFixed1 (failureRate (requestHistory b)) ++ "%" /\
    (requestHistory b = [] -> m_failureRate m = "0.0%") /\
    m_successfulCalls m = successCount b /\
    m_failedCalls m = failureCount b /\
    Metrics_json m =
      JObj [ ("state", JStr (State_name (state b)));
             ("failureRate", JStr (m_failureRate m));
             ("successfulCalls", JNum (Z.of_N (successCount b)));
             ("failedCalls", JNum (Z.of_N (failureCount b))) ].
Proof.
  intros b. cbv zeta. unfold getMetrics, failureRate. cbn [fst snd m_state m_failureRate m_successfulCalls m_failedCalls].
  repeat split.
  - destruct (len (requestHistory b) >? 0); reflexivity.
  - intros ->. reflexivity.
Qed.

(** The statement of the specification fails on a breaker that has seen no call: the
    rate reported is ["0.0%"], not ["0.0"]. *)
Lemma empty_history_rate_has_percent_sign :
  ~ (forall b : CircuitBreaker,
       requestHistory b = [] -> m_failureRate (fst (getMetrics b)) = "0.0").
Proof.
  intros H. specialize (H fresh eq_refl). vm_compute in H. discriminate H.
Qed.

(** One decimal, the nearest one: a third of the calls failed, all of
    them, one in sixteen. *)
Example getMetrics_one_decimal :
  let history l := set_requestHistory (map (fun ok => {| success := ok |}) l) fresh in
  m_failureRate (fst (getMetrics (history [false; true; true]))) = "33.3%" /\
  m_failureRate (fst (getMetrics (history [false]))) = "100.0%" /\
  m_failureRate (fst (getMetrics (history
    [true; true; true; true; true; true; true; true;
     true; true; true; true; true; true; true; false]))) = "6.3%".
Proof. vm_compute. repeat split. Qed.

(** ** The theorems at work on the sample breakers and requests *)

Lemma closed_breaker_trips_witness :
  (failureCount (breaker_after [failing_call 0] fresh tt) = 1%N /\
   state (breaker_after [failing_call 0] fresh tt) <> OPEN) /\
  state tripped = OPEN /\
  (exists k, (1 <= k <= 10)%nat /\
             state (breaker_after (firstn k alternating) fresh tt) = OPEN) /\
  ((forall k, (k < 10)%nat ->
              state (breaker_after (firstn k alternating) fresh tt) = CLOSED) ->
   state (breaker_after alternating fresh tt) = OPEN).
Proof.
  destruct closed_breaker_trips as (H1 & H2 & H3 & _).
  split; [|split].
  - destruct (H1 unit unit (fn (failing_call 0)) 0 0 fresh
                (breaker_after [failing_call 0] fresh tt) tt tt
                (Error "Service Error - 500"))
      as (Hc & _ & Hiff); [reflexivity | reflexivity |].
    split; [exact Hc|].
    intros Ho. apply Hiff in Ho. vm_compute in Ho.
    destruct Ho as [Ho | [Ho _]]; apply Ho; reflexivity.
  - apply (H2 unit unit
             [failing_call 0; failing_call 1; failing_call 2; failing_call 3;
              failing_call 4] fresh tt); reflexivity.
  - apply (H3 unit unit alternating fresh tt).
    + reflexivity.
    + reflexivity.
    + reflexivity.
    + vm_compute. discriminate.
    + reflexivity.
    + exists (removelast (outcomes alternating fresh tt)), (Error "Service Error - 500").
      vm_compute. reflexivity.
    + vm_compute. discriminate.
Defined.

Lemma open_breaker_witness :
  snd (execute 5 5 (counting (Resolves 0 tt)) tripped 0%nat) = 0%nat /\
  snd (execute 40000 40000 (counting (Resolves 0 tt)) tripped 0%nat) = 1%nat.
Proof.
  destruct (open_breaker_rejects_then_tries nat unit (counting (Resolves 0 tt))
              5 5 tripped 0%nat) as [Hin _]; [reflexivity|].
  destruct (open_breaker_rejects_then_tries nat unit (counting (Resolves 0 tt))
              40000 40000 tripped 0%nat) as [_ Hout]; [reflexivity|].
  split.
  - apply Hin. vm_compute. discriminate.
  - destruct Hout as (b1 & _ & _ & _ & _ & _ & Hn); [vm_compute; reflexivity|].
    apply Hn.
Defined.

Lemma rejection_not_recorded_witness :
  snd (fst (execute 5 5 (counting (Resolves 0 tt)) tripped 0%nat)) = tripped.
Proof.
  apply (rejection_not_recorded nat unit (counting (Resolves 0 tt)) 5 5 tripped 0%nat).
  - reflexivity.
  - vm_compute. discriminate.
Defined.

Lemma half_open_trials_witness :
  (state (breaker_after [ok_call 40002; ok_call 40003; ok_call 40004] on_probation tt) = CLOSED /\
   failureCount (breaker_after [ok_call 40002; ok_call 40003; ok_call 40004] on_probation tt) = 0%N) /\
  (state (breaker_after [failing_call 40002] on_probation tt) = OPEN /\
   trialCount (breaker_after [failing_call 40002] on_probation tt) = 0%N) /\
  trials_pending on_probation.
Proof.
  destruct half_open_trials as (H1 & H2 & _ & H4).
  split; [|split].
  - apply (H1 unit unit [ok_call 40002; ok_call 40003; ok_call 40004] on_probation tt).
    + reflexivity.
    + vm_compute. discriminate.
    + reflexivity.
    + reflexivity.
  - apply (H2 unit unit (fn (failing_call 40002)) 40002 40002 on_probation
              (breaker_after [failing_call 40002] on_probation tt) tt tt
              (Error "Service Error - 500")); reflexivity.
  - apply (H4 fresh on_probation).
    + vm_compute. discriminate.
    + unfold trials_pending. intros E. vm_compute in E. discriminate E.
    + apply (run_reachable
               [failing_call 0; failing_call 1; failing_call 2; failing_call 3;
                failing_call 4; ok_call 40000; ok_call 40001] fresh tt).
Defined.

Lemma closing_keeps_trialCount_witness :
  trialCount (breaker_after [ok_call 40002] on_probation tt) = 3%N.
Proof.
  destruct closing_keeps_trialCount as (H & _).
  destruct (H unit unit (fn (ok_call 40002)) 40002 40002
              on_probation on_probation
              (breaker_after [ok_call 40002] on_probation tt) tt tt tt)
    as (_ & Ht & _); [reflexivity | reflexivity | reflexivity | reflexivity | ].
  exact Ht.
Defined.

Lemma history_never_exceeds_window_witness :
  len (requestHistory (breaker_after (alternating ++ alternating) fresh tt)) <= 10.
Proof.
  destruct history_never_exceeds_window as (_ & _ & H).
  apply (H unit unit (alternating ++ alternating)%list "userProfile" default_options tt).
  vm_compute. discriminate.
Defined.

Lemma composition_witness :
  fst (getRecommendations no_env (at_instant 5) "42" catalog_open_profile_failing) =
  res_json (spec_compose "42" (default_preferences "42") (JArr [])
              (mock_data "trending") CatalogOpen).
Proof.
  destruct (composition_follows_breaker_states no_env (at_instant 5) "42"
              catalog_open_profile_failing) as (_ & _ & H & _).
  exact H.
Defined.


Lemma unflagged_fallback_witness :
  field "userPreferences"
    (body (fst (getRecommendations no_env (at_instant 0) "42" profile_failing)))
    = Some (default_preferences "42") /\
  field "fallback_triggered_for"
    (body (fst (getRecommendations no_env (at_instant 0) "42" profile_failing)))
    = None.
Proof.
  destruct (unflagged_fallback no_env (at_instant 0) "42" profile_failing)
    as [H _].
  destruct H as (_ & Hp & Ha).
  - reflexivity.
  - vm_compute. discriminate.
  - split; [exact Hp | exact Ha].
Defined.

Lemma getMetrics_snapshot_witness :
  m_failureRate (fst (getMetrics fresh)) = "0.0%" /\
  m_failureRate (fst (getMetrics tripped)) = "100.0%".
Proof.
  split.
  - apply (getMetrics_snapshot fresh). reflexivity.
  - destruct (getMetrics_snapshot tripped) as (_ & _ & H & _). exact H.
Defined.


(** * Further properties of the breaker *)

Lemma admission_fields now b b1 :
  admission now b = Return b1 ->
  successCount b1 = successCount b /\ failureCount b1 = failureCount b /\
  lastFailureTime b1 = lastFailureTime b /\ requestHistory b1 = requestHistory b.
Proof.
  unfold admission. destruct (state b); try destruct (_ >? _); intros H;
    inversion H; subst; simpl; auto.
Qed.

Lemma onSuccess_successCount b : successCount (onSuccess b) = (successCount b + 1)%N.
Proof.
  unfold onSuccess, record_outcome; simpl.
  destruct (state b); simpl; try destruct (_ >=? _); reflexivity.
Qed.

Lemma onFailure_successCount now b : successCount (onFailure now b) = successCount b.
Proof.
  unfold onFailure, record_outcome; simpl.
  destruct (state b); simpl;
    try (destruct (_ >=? _); simpl; try destruct (_ && _)); reflexivity.
Qed.

Lemma onSuccess_lastFailureTime b : lastFailureTime (onSuccess b) = lastFailureTime b.
Proof.
  unfold onSuccess, record_outcome; simpl.
  destruct (state b); simpl; try destruct (_ >=? _); reflexivity.
Qed.

Lemma onFailure_lastFailureTime now b : lastFailureTime (onFailure now b) = Some now.
Proof.
  unfold onFailure, record_outcome; simpl.
  destruct (state b); simpl;
    try (destruct (_ >=? _); simpl; try destruct (_ && _)); reflexivity.
Qed.

Lemma onSuccess_not_OPEN b : state b <> OPEN -> state (onSuccess b) <> OPEN.
Proof.
  intros NO. destruct (state b) eqn:S; [| congruence |].
  - destruct (onSuccess_CLOSED b S) as [-> _]. discriminate.
  - destruct (onSuccess_HALF_OPEN b S) as [_ [(_ & -> & _) | (_ & ->)]]; discriminate.
Qed.

Lemma admission_Return_not_OPEN now b b1 :
  admission now b = Return b1 -> state b1 <> OPEN.
Proof.
  intros G. destruct (admission_state now b b1 G) as [(NO & ->) | (_ & S & _)];
    congruence.
Qed.

Section Accounting.

Context {W A : Type}.
Implicit Types (fn : W -> settlement A * W) (calls : list (Call W A)).

(** X1.  [successCount] counts the calls that returned: over any sequence
    of calls it grows by the number of calls that [execute] let return,
    and by nothing else (failures, time-outs and rejections leave it). *)
Theorem successCount_counts_returns calls : forall b w,
  successCount (breaker_after calls b w) =
  (successCount b + N.of_nat (List.length (filter is_Return (outcomes calls b w))))%N.
Proof.
  unfold outcomes, breaker_after.
  induction calls as [|c calls IH]; intros b w; simpl.
  - lia.
  - destruct (execute _ _ _ b w) as [[r b1] w1] eqn:E.
    specialize (IH b1 w1).
    destruct (run calls b1 w1) as [[rs b2] w2]; simpl in *.
    rewrite IH. apply execute_inv in E.
    destruct E as [(_ & -> & -> & _) | (b0 & G & _ & [(v & _ & -> & ->) | (e & _ & -> & ->)])];
      simpl.
    + lia.
    + rewrite onSuccess_successCount.
      destruct (admission_fields _ _ _ G) as (-> & _). lia.
    + rewrite onFailure_successCount.
      destruct (admission_fields _ _ _ G) as (-> & _). lia.
Qed.

(** X2.  The transitions one [execute] can make.  A call that returns
    never leaves the breaker OPEN, and leaves a CLOSED breaker CLOSED with
    no consecutive failure.  A call that fails leaves an OPEN or HALF_OPEN
    breaker OPEN, and a CLOSED breaker CLOSED or OPEN.  No call takes a
    CLOSED breaker to HALF_OPEN. *)
Theorem execute_transitions now later fn b w :
  let r := fst (fst (execute now later fn b w)) in
  let b' := snd (fst (execute now later fn b w)) in
  (is_Return r = true -> state b' <> OPEN) /\
  (is_Return r = true -> state b = CLOSED ->
     state b' = CLOSED /\ failureCount b' = 0%N) /\
  (is_Throw r = true -> state b <> CLOSED -> state b' = OPEN) /\
  (is_Throw r = true -> state b = CLOSED -> state b' = CLOSED \/ state b' = OPEN) /\
  (state b = CLOSED -> state b' <> HALF_OPEN).
Proof.
  cbv zeta.
  destruct (execute now later fn b w) as [[r b'] w'] eqn:E. simpl.
  split; [|split; [|split; [|split]]].
  - intros R. destruct r as [v|e]; [|discriminate].
    apply execute_inv in E.
    destruct E as [(_ & E & _) | (b1 & G & _ & [(v' & _ & _ & ->) | (e & _ & E & _)])];
      try discriminate.
    apply onSuccess_not_OPEN. eapply admission_Return_not_OPEN; eauto.
  - intros R S. destruct r as [v|e]; [|discriminate].
    apply execute_Return_not_OPEN in E; [|congruence]. subst b'.
    apply onSuccess_CLOSED; assumption.
  - intros T NC. destruct r as [v|e]; [discriminate|].
    destruct (state b) eqn:S; [congruence | |].
    + eapply execute_Throw_OPEN; eauto.
    + apply execute_Throw_not_OPEN in E; [|congruence]. subst b'.
      apply onFailure_HALF_OPEN; assumption.
  - intros T S. destruct r as [v|e]; [discriminate|].
    apply execute_Throw_not_OPEN in E; [|congruence]. subst b'.
    destruct (onFailure_CLOSED later b S) as [_ [H|H]]; auto.
  - intros S. destruct r as [v|e].
    + apply execute_Return_not_OPEN in E; [|congruence]. subst b'.
      destruct (onSuccess_CLOSED b S) as [-> _]. discriminate.
    + apply execute_Throw_not_OPEN in E; [|congruence]. subst b'.
      destruct (onFailure_CLOSED later b S) as [_ [-> | ->]]; discriminate.
Qed.

End Accounting.

(** X3.  An OPEN breaker always knows when it last failed: in every state
    reached from a breaker for which this holds (a new one is CLOSED),
    whatever the interleaving of requests, OPEN comes with a
    [lastFailureTime] that is set, so the cool-down is never measured
    from [null]. *)
Theorem OPEN_has_lastFailureTime b0 b :
  (state b0 = OPEN -> lastFailureTime b0 <> None) ->
  reachable b0 b ->
  state b = OPEN ->
  exists t, lastFailureTime b = Some t.
Proof.
  intros H0 R. induction R as [|b now b1 R IH G|b R IH|b now R IH]; intros S.
  - destruct (lastFailureTime b0) as [t|] eqn:L; [eauto|].
    exfalso. apply (H0 S). reflexivity.
  - apply admission_Return_not_OPEN in G. congruence.
  - rewrite onSuccess_lastFailureTime. apply IH.
    destruct (state b) eqn:Sb; [| reflexivity |];
      exfalso; apply (onSuccess_not_OPEN b); congruence.
  - rewrite onFailure_lastFailureTime. eauto.
Qed.

Lemma OPEN_has_lastFailureTime_witness :
  exists t, lastFailureTime tripped = Some t.
Proof.
  apply (OPEN_has_lastFailureTime fresh tripped).
  - intros E. vm_compute in E. discriminate E.
  - apply (run_reachable
             [failing_call 0; failing_call 1; failing_call 2; failing_call 3;
              failing_call 4] fresh tt).
  - reflexivity.
Defined.

Section Rejections.

Context {W A : Type}.
Implicit Types (fn : W -> settlement A * W) (calls : list (Call W A)).

(** X4.  While the cool-down lasts nothing gets through: when every call
    of a sequence enters an OPEN breaker within [openDuration] of its last
    failure, every call is rejected with the circuit-open error, and the
    breaker and the world of the wrapped calls end as they started. *)
Theorem cooling_breaker_rejects_all calls b w :
  state b = OPEN ->
  Forall (fun c => at_entry c - to_number (lastFailureTime b) <= openDuration b) calls ->
  run calls b w = (map (fun _ => Throw (circuit_open_error b)) calls, b, w).
Proof.
  intros S F. induction F as [|c calls Hc F IH]; simpl.
  - reflexivity.
  - unfold execute. rewrite (admission_OPEN_cooling _ b S Hc). rewrite IH. reflexivity.
Qed.

End Rejections.

Lemma cooling_breaker_rejects_all_witness :
  run [ok_call 5; failing_call 6; slow_call 30004] tripped tt =
  ([Throw (circuit_open_error tripped); Throw (circuit_open_error tripped);
    Throw (circuit_open_error tripped)], tripped, tt).
Proof.
  apply (cooling_breaker_rejects_all [ok_call 5; failing_call 6; slow_call 30004] tripped tt).
  - reflexivity.
  - repeat constructor; vm_compute; discriminate.
Defined.

(** X5.  The history is a queue: with a window of at least one entry, a
    recorded outcome goes to the end of the history, and the oldest entry
    is dropped exactly when the window was full. *)
Theorem history_is_fifo ok b :
  1 <= failureRateWindow b ->
  history_bounded b ->
  pushed ok b =
  ((if len (requestHistory b) =? failureRateWindow b
    then tl (requestHistory b) else requestHistory b)
   ++ [ {| success := ok |} ])%list.
Proof.
  unfold history_bounded, pushed, record_outcome; simpl. intros W1 HB.
  rewrite len_app. change (len [ {| success := ok |} ]) with 1.
  destruct (Z.eqb_spec (len (requestHistory b)) (failureRateWindow b)) as [E|E].
  - destruct (Z.gtb_spec (len (requestHistory b) + 1) (failureRateWindow b)); [|lia].
    destruct (requestHistory b) as [|x h]; [|reflexivity].
    change (len []) with 0 in E. lia.
  - destruct (Z.gtb_spec (len (requestHistory b) + 1) (failureRateWindow b)); [lia|].
    reflexivity.
Qed.

Lemma history_is_fifo_witness :
  pushed true (breaker_after (alternating ++ alternating) fresh tt) =
  (tl (requestHistory (breaker_after (alternating ++ alternating) fresh tt))
   ++ [ {| success := true |} ])%list.
Proof.
  apply (history_is_fifo true (breaker_after (alternating ++ alternating) fresh tt)).
  - vm_compute. discriminate.
  - vm_compute. discriminate.
Defined.

(** X6.  The breaker sees only whether a call returned or failed: two
    calls entering the same breaker at the same instants leave it in the
    same state when both return, whatever they return, and when both
    fail, whether by rejection, time-out or an error of their own. *)
Theorem breaker_sees_only_the_outcome :
  forall (W1 A1 W2 A2 : Type)
         (fn1 : W1 -> settlement A1 * W1) (fn2 : W2 -> settlement A2 * W2)
         (now later : Z) (b : CircuitBreaker) (w1 : W1) (w2 : W2),
    is_Return (fst (fst (execute now later fn1 b w1))) =
    is_Return (fst (fst (execute now later fn2 b w2))) ->
    snd (fst (execute now later fn1 b w1)) = snd (fst (execute now later fn2 b w2)).
Proof.
  intros W1 A1 W2 A2 fn1 fn2 now later b w1 w2.
  unfold execute. destruct (admission now b) as [b1|e]; [|reflexivity].
  destruct (fn1 w1) as [p1 w1'], (fn2 w2) as [p2 w2'].
  destruct (race p1 (timeout b1)), (race p2 (timeout b1)); simpl;
    intros H; try reflexivity; discriminate H.
Qed.

Lemma breaker_sees_only_the_outcome_witness :
  snd (fst (execute 0 2000 (fn (slow_call 0)) fresh tt)) =
  snd (fst (execute 0 2000 (fn (failing_call 0)) fresh tt)).
Proof.
  apply (breaker_sees_only_the_outcome unit unit unit unit
           (fn (slow_call 0)) (fn (failing_call 0)) 0 2000 fresh tt tt).
  reflexivity.
Defined.

Section Recovery.

Context {W A : Type}.
Implicit Types (fn : W -> settlement A * W) (calls : list (Call W A)).

(** X7.  Enough successes in a row close the circuit from any state: when
    at least [halfOpenTrials] calls, and at least one, return one after
    the other, the breaker ends CLOSED with no consecutive failure,
    whether it started CLOSED, HALF_OPEN or OPEN (an OPEN breaker that
    lets a call return had cooled down). *)
Theorem successes_close_from_any_state calls b w :
  calls <> [] ->
  halfOpenTrials b <= Z.of_nat (List.length calls) ->
  forallb is_Return (outcomes calls b w) = true ->
  state (breaker_after calls b w) = CLOSED /\
  failureCount (breaker_after calls b w) = 0%N.
Proof.
  intros NE N F. destruct (state b) eqn:S.
  - destruct calls as [|c calls]; [congruence|].
    unfold outcomes, breaker_after in *. simpl in *.
    destruct (execute _ _ _ b w) as [[r b1] w1] eqn:E.
    pose proof (succeeding_calls_close calls b1 w1) as IH.
    unfold outcomes, breaker_after in IH.
    destruct (run calls b1 w1) as [[rs b2] w2]; simpl in *.
    apply andb_true_iff in F. destruct F as [Fr Frs].
    destruct r as [v|e]; [|discriminate].
    apply execute_Return_not_OPEN in E; [|congruence]. subst b1.
    apply IH; [assumption|]. left. apply onSuccess_CLOSED; assumption.
  - destruct calls as [|c calls]; [congruence|].
    unfold outcomes, breaker_after in *. simpl in *.
    pose proof (execute_config (at_entry c) (at_failure c) (fn c) b w) as C.
    destruct (execute _ _ _ b w) as [[r b1] w1] eqn:E.
    pose proof (succeeding_calls_close calls b1 w1) as IH.
    unfold outcomes, breaker_after in IH.
    destruct (run calls b1 w1) as [[rs b2] w2]; simpl in *.
    apply andb_true_iff in F. destruct F as [Fr Frs].
    destruct r as [v|e]; [|discriminate].
    apply IH; [assumption|]. clear IH.
    apply execute_inv in E.
    destruct E as [(_ & E & _) | (b0 & G & _ & [(v' & _ & _ & ->) | (e & _ & E & _)])];
      try discriminate.
    destruct (admission_state _ _ _ G) as [(NO & _) | (_ & S0 & T0)]; [congruence|].
    destruct (onSuccess_HALF_OPEN b0 S0) as [Ht [(_ & Hc & Hf) | (Hlt & Hh)]].
    + left. auto.
    + right. split; [assumption|].
      destruct C as (_ & _ & _ & _ & _ & _ & C). simpl in C. rewrite C, Ht, T0.
      apply admission_config in G. destruct G as (_ & _ & _ & _ & _ & _ & G).
      rewrite T0, G in Hlt.
      destruct calls; [simpl in N; exfalso; lia|].
      split; [discriminate|]. simpl List.length in *. lia.
  - apply succeeding_calls_close; [assumption|].
    right. split; [assumption|]. split; [assumption|]. lia.
Qed.

End Recovery.

Lemma successes_close_from_any_state_witness :
  state (breaker_after [ok_call 40000; ok_call 40001; ok_call 40002] tripped tt) = CLOSED /\
  failureCount (breaker_after [ok_call 40000; ok_call 40001; ok_call 40002] tripped tt) = 0%N.
Proof.
  apply (successes_close_from_any_state
           [ok_call 40000; ok_call 40001; ok_call 40002] tripped tt).
  - discriminate.
  - vm_compute. discriminate.
  - reflexivity.
Defined.

Section Invocations.

Context {A : Type}.
Implicit Types (calls : list (Call nat A)).

(** One [execute] on a counting stub: the counter moves by one when the
    call is let through and stays when it is rejected. *)
Lemma execute_counting now later (p : settlement A) b n :
  snd (execute now later (counting p) b n) =
  match admission now b with Return _ => S n | Throw _ => n end.
Proof.
  unfold execute, counting. destruct (admission now b) as [b1|e]; [|reflexivity].
  destruct (race p (timeout b1)); reflexivity.
Qed.

(** X8.  No retries: through any sequence of calls on counting stubs,
    [execute] invokes each wrapped call at most once, and every call that
    returned was invoked: the counter ends between the number of calls
    that returned and the number of calls made. *)
Theorem wrapped_call_invoked_at_most_once calls : forall b n,
  Forall (fun c => exists p, fn c = counting p) calls ->
  (n + List.length (filter is_Return (outcomes calls b n)) <= snd (run calls b n)
   /\ snd (run calls b n) <= n + List.length calls)%nat.
Proof.
  unfold outcomes.
  induction calls as [|c calls IH]; intros b n F; simpl.
  - lia.
  - inversion F as [|c' calls' [p Hp] F']; subst.
    pose proof (execute_counting (at_entry c) (at_failure c) p b n) as Hn.
    rewrite Hp.
    destruct (execute _ _ (counting p) b n) as [[r b1] n1] eqn:E. simpl in Hn.
    specialize (IH b1 n1 F').
    destruct (run calls b1 n1) as [[rs b2] n2]; simpl in *.
    apply execute_inv in E.
    destruct E as [(G & -> & _ & _) | (b0 & G & _ & [(v & _ & -> & _) | (e & _ & -> & _)])];
      rewrite G in Hn; simpl; lia.
Qed.

End Invocations.

Lemma wrapped_call_invoked_at_most_once_witness :
  (0 + List.length (filter is_Return
                      (outcomes [ {| at_entry := 0; at_failure := 0;
                                     fn := counting (Resolves 0 tt) |} ] tripped 0%nat))
     <= snd (run [ {| at_entry := 0; at_failure := 0;
                      fn := counting (Resolves 0 tt) |} ] tripped 0%nat)
   /\ snd (run [ {| at_entry := 0; at_failure := 0;
                    fn := counting (Resolves 0 tt) |} ] tripped 0%nat) <= 0 + 1)%nat.
Proof.
  apply (wrapped_call_invoked_at_most_once
           [ {| at_entry := 0; at_failure := 0; fn := counting (Resolves 0 tt) |} ]
           tripped 0%nat).
  repeat constructor. exists (Resolves 0 tt). reflexivity.
Defined.


(** * Further properties of the service *)

Lemma simulated_existsb service :
  existsb (String.eqb service) ["user-profile"; "content"] = true <-> simulated service.
Proof.
  unfold simulated. simpl. rewrite !orb_true_iff, !String.eqb_eq. intuition discriminate.
Qed.

Lemma recognised_existsb behavior :
  existsb (String.eqb behavior) ["normal"; "slow"; "fail"] = true <-> recognised behavior.
Proof.
  unfold recognised. simpl. rewrite !orb_true_iff, !String.eqb_eq. intuition discriminate.
Qed.

(** The two ways [simulate] can go. *)
Lemma simulate_cases service behavior app :
  let res := fst (simulate service behavior app) in
  let app' := snd (simulate service behavior app) in
  (simulated service /\ recognised behavior ->
     status res = 200 /\
     breakers app' = breakers app /\
     (service = "user-profile" ->
        user_profile_service (serviceStates app') = behavior /\
        content_service (serviceStates app') = content_service (serviceStates app)) /\
     (service = "content" ->
        content_service (serviceStates app') = behavior /\
        user_profile_service (serviceStates app') =
          user_profile_service (serviceStates app))) /\
  (~ (simulated service /\ recognised behavior) ->
     status res = 400 /\ app' = app).
Proof.
  cbv zeta. unfold simulate.
  destruct (existsb (String.eqb service) ["user-profile"; "content"]) eqn:Es;
    destruct (existsb (String.eqb behavior) ["normal"; "slow"; "fail"]) eqn:Eb;
    simpl; split; intros H.
  - split; [reflexivity|]. split; [reflexivity|].
    split; intros ->; simpl; split; reflexivity.
  - exfalso. apply H. split; [apply simulated_existsb | apply recognised_existsb];
      assumption.
  - destruct H as [_ H]. apply recognised_existsb in H. congruence.
  - auto.
  - destruct H as [H _]. apply simulated_existsb in H. congruence.
  - auto.
  - destruct H as [H _]. apply simulated_existsb in H. congruence.
  - auto.
Qed.

(** X9.  [POST /simulate] validates before it acts.  A recognised
    behaviour for one of the two services answers 200, sets the behaviour
    of that service and touches neither the other service nor the
    breakers; anything else answers 400 and leaves the application as it
    was. *)
Theorem simulate_validates service behavior app :
  let res := fst (simulate service behavior app) in
  let app' := snd (simulate service behavior app) in
  (simulated service /\ recognised behavior ->
     status res = 200 /\
     breakers app' = breakers app /\
     (service = "user-profile" ->
        user_profile_service (serviceStates app') = behavior /\
        content_service (serviceStates app') = content_service (serviceStates app)) /\
     (service = "content" ->
        content_service (serviceStates app') = behavior /\
        user_profile_service (serviceStates app') =
          user_profile_service (serviceStates app))) /\
  (~ (simulated service /\ recognised behavior) ->
     status res = 400 /\ app' = app).
Proof. exact (simulate_cases service behavior app). Qed.

Lemma simulate_validates_witness :
  status (fst (simulate "user-profile" "bogus" initial_App)) = 400 /\
  snd (simulate "user-profile" "bogus" initial_App) = initial_App.
Proof.
  apply (simulate_validates "user-profile" "bogus" initial_App).
  intros [_ [H|[H|H]]]; discriminate H.
Defined.

Lemma timer_delay_pos ms : 1 <= JsNumber.timer_delay ms.
Proof.
  unfold JsNumber.timer_delay.
  destruct (Z.leb_spec 1 ms); simpl; [|lia].
  destruct (Z.leb_spec ms 2147483647); lia.
Qed.

(** The race of the stub against a timer, by behaviour. *)
Lemma race_mockServiceCall url behavior dataType ms :
  (behavior = "fail" ->
     race (mockServiceCall url behavior dataType) ms
       = Throw (Error "Service Error - 500")) /\
  (behavior = "slow" ->
     race (mockServiceCall url behavior dataType) ms
       = if (3000 <=? ms) && (ms <=? 2147483647)
         then Return (mock_data dataType) else Throw (Error "Timeout")) /\
  (behavior <> "slow" -> behavior <> "fail" ->
     race (mockServiceCall url behavior dataType) ms = Return (mock_data dataType)).
Proof.
  pose proof (timer_delay_pos ms) as P.
  unfold mockServiceCall, race. split; [|split].
  - intros ->. simpl. destruct (Z.leb_spec 0 (JsNumber.timer_delay ms)); [reflexivity | lia].
  - intros ->. simpl. unfold JsNumber.timer_delay.
    destruct (Z.leb_spec 1 ms), (Z.leb_spec ms 2147483647), (Z.leb_spec 3000 ms); simpl;
      try reflexivity; try lia.
    + destruct (Z.leb_spec 3000 ms); [reflexivity | lia].
    + destruct (Z.leb_spec 3000 ms); [lia | reflexivity].
  - intros Hs Hf.
    destruct (String.eqb_spec behavior "slow"); [congruence|].
    destruct (String.eqb_spec behavior "fail"); [congruence|].
    destruct (Z.leb_spec 0 (JsNumber.timer_delay ms)); [reflexivity | lia].
Qed.

(** X10.  The stub against the timer of the breaker.  A failing service
    is reported as a service error whatever the time-out; a slow service
    answers after three seconds, so its call times out unless the
    time-out is set to three seconds or more (and to a delay that
    [setTimeout] honours); any other behaviour, recognised or not,
    answers at once with the data. *)
Theorem mockServiceCall_against_timer url behavior dataType ms :
  (behavior = "fail" ->
     race (mockServiceCall url behavior dataType) ms
       = Throw (Error "Service Error - 500")) /\
  (behavior = "slow" ->
     race (mockServiceCall url behavior dataType) ms
       = if (3000 <=? ms) && (ms <=? 2147483647)
         then Return (mock_data dataType) else Throw (Error "Timeout")) /\
  (behavior <> "slow" -> behavior <> "fail" ->
     race (mockServiceCall url behavior dataType) ms = Return (mock_data dataType)).
Proof. exact (race_mockServiceCall url behavior dataType ms). Qed.

Lemma mockServiceCall_against_timer_witness :
  race (mockServiceCall "http://user-profile-service:8081" "slow" "user") 2000
    = Throw (Error "Timeout") /\
  race (mockServiceCall "http://user-profile-service:8081" "slow" "user") 5000
    = Return (mock_data "user").
Proof.
  split.
  - destruct (mockServiceCall_against_timer
                "http://user-profile-service:8081" "slow" "user" 2000) as (_ & H & _).
    apply H. reflexivity.
  - destruct (mockServiceCall_against_timer
                "http://user-profile-service:8081" "slow" "user" 5000) as (_ & H & _).
    apply H. reflexivity.
Defined.

Lemma execute_world_const {W A : Type} now later (g : W -> settlement A) b w :
  snd (execute now later (fun s => (g s, s)) b w) = w.
Proof.
  unfold execute. destruct (admission now b) as [b1|e]; [|reflexivity].
  destruct (race (g w) (timeout b1)); reflexivity.
Qed.

Lemma getRecommendations_app env clock userId app :
  snd (getRecommendations env clock userId app) =
  {| breakers :=
       {| userProfile := snd (fst (profile_call env clock app));
          content := snd (fst (catalog_call env clock app)) |};
     serviceStates := serviceStates app |}.
Proof. rewrite getRecommendations_eq. reflexivity. Qed.

(** Recommendation requests as two runs, one through each breaker. *)
Lemma recommend_runs env (cus : list (Instants * string)) : forall app,
  let app' := snd (serve_all env (recommend cus) app) in
  userProfile (breakers app') =
    breaker_after (map (fun cu => profile_Call env (fst cu)) cus)
      (userProfile (breakers app)) (serviceStates app) /\
  content (breakers app') =
    breaker_after (map (fun cu => catalog_Call env (fst cu)) cus)
      (content (breakers app)) (serviceStates app) /\
  serviceStates app' = serviceStates app.
Proof.
  unfold breaker_after.
  induction cus as [|[clock userId] cus IH]; intros app; simpl.
  - auto.
  - pose proof (getRecommendations_app env clock userId app) as E.
    destruct (getRecommendations env clock userId app) as [res app1]. simpl in E.
    specialize (IH app1). cbv zeta in IH.
    destruct (serve_all env (recommend cus) app1) as [ress app2]. simpl in *.
    pose proof (execute_world_const (profile_entry clock) (profile_failure clock)
      (fun s => mockServiceCall
                  (env_or (USER_PROFILE_URL env) "http://user-profile-service:8081")
                  (user_profile_service s) "user")
      (userProfile (breakers app)) (serviceStates app)) as Wp.
    pose proof (execute_world_const (content_entry clock) (content_failure clock)
      (fun s => mockServiceCall
                  (env_or (CONTENT_URL env) "http://content-service:8082")
                  (content_service s) "movies")
      (content (breakers app)) (serviceStates app)) as Wc.
    unfold profile_call, catalog_call in E.
    destruct (execute (profile_entry clock) _ _ _ _) as [[rp bp] wp]. simpl in Wp. subst wp.
    destruct (execute (content_entry clock) _ _ _ _) as [[rc bc] wc]. simpl in Wc. subst wc.
    subst app1. simpl in IH.
    destruct (run (map _ cus) bp _) as [[rsp bp2] wp2].
    destruct (run (map _ cus) bc _) as [[rsc bc2] wc2]. simpl in *.
    exact IH.
Qed.

(** X11.  The two breakers do not interfere.  After any sequence of
    recommendation requests the profile breaker is what the profile calls
    of these requests alone make of it, whatever the catalog service and
    its breaker go through, and the other way round; the requests leave
    the simulated behaviours as they are. *)
Theorem breakers_independent env (cus : list (Instants * string)) : forall app,
  let app' := snd (serve_all env (recommend cus) app) in
  userProfile (breakers app') =
    breaker_after (map (fun cu => profile_Call env (fst cu)) cus)
      (userProfile (breakers app)) (serviceStates app) /\
  content (breakers app') =
    breaker_after (map (fun cu => catalog_Call env (fst cu)) cus)
      (content (breakers app)) (serviceStates app) /\
  serviceStates app' = serviceStates app.
Proof. exact (recommend_runs env cus). Qed.

Section FailingService.

Context {W A : Type}.
Implicit Types (calls : list (Call W A)).

(** Through a service that never answers in time, and that the calls leave
    as it is, every call fails. *)
Lemma failing_service_all_Throw calls w : forall b,
  (forall c, In c calls ->
     snd (fn c w) = w /\ is_Throw (race (fst (fn c w)) (timeout b)) = true) ->
  forallb is_Throw (outcomes calls b w) = true.
Proof.
  unfold outcomes.
  induction calls as [|c calls IH]; intros b H; simpl.
  - reflexivity.
  - pose proof (execute_config (at_entry c) (at_failure c) (fn c) b w) as C.
    destruct (H c (or_introl eq_refl)) as [Hw Hr].
    destruct (execute _ _ _ b w) as [[r b1] w1] eqn:E. simpl in C.
    apply execute_inv in E.
    assert (w1 = w /\ is_Throw r = true) as [-> Tr].
    { destruct E as [(_ & -> & _ & ->) | (b0 & G & -> & [(v & R & _ & _) | (e & _ & -> & _)])];
        auto.
      apply admission_config in G. destruct G as (_ & G & _).
      rewrite <- G, R in Hr. discriminate Hr. }
    specialize (IH b1).
    destruct (run calls b1 w) as [[rs b2] w2]; simpl in *.
    rewrite Tr, IH; [reflexivity|].
    intros c' I. destruct C as (_ & -> & _). apply H. right. assumption.
Qed.

End FailingService.

(** X12.  A profile service that is slow or failing opens its breaker:
    when the time-out is shorter than the three seconds a slow service
    takes, recommendation requests in a row, as many as it takes the
    consecutive failures to reach [failureThreshold], leave a CLOSED
    profile breaker OPEN, and the metrics endpoint then reports OPEN. *)
Theorem unhealthy_profile_service_opens env (cus : list (Instants * string)) app :
  user_profile_service (serviceStates app) = "slow" \/
  user_profile_service (serviceStates app) = "fail" ->
  JsNumber.timer_delay (timeout (userProfile (breakers app))) < 3000 ->
  state (userProfile (breakers app)) = CLOSED ->
  cus <> [] ->
  failureThreshold (userProfile (breakers app))
    <= Z.of_N (failureCount (userProfile (breakers app))) + Z.of_nat (List.length cus) ->
  let app' := snd (serve_all env (recommend cus) app) in
  state (userProfile (breakers app')) = OPEN /\
  (exists rest,
     field "userProfileCircuitBreaker" (body (fst (metrics app')))
       = Some (JObj (("state", JStr "OPEN") :: rest))).
Proof.
  intros B T S NE F. cbv zeta.
  destruct (recommend_runs env cus app) as (Hp & _ & _). cbv zeta in Hp.
  assert (O : state (userProfile (breakers (snd (serve_all env (recommend cus) app)))) = OPEN).
  { rewrite Hp. apply failing_calls_open.
    - apply failing_service_all_Throw. intros c I.
      apply in_map_iff in I. destruct I as ([clock userId] & <- & _). simpl.
      split; [reflexivity|].
      unfold mockServiceCall, race.
      destruct B as [-> | ->]; simpl.
      + destruct (Z.leb_spec 3000
                    (JsNumber.timer_delay (timeout (userProfile (breakers app)))));
          [lia | reflexivity].
      + destruct (_ <=? _); reflexivity.
    - right. split; [assumption|]. split.
      + destruct cus; [congruence | discriminate].
      + rewrite length_map. assumption. }
  split; [assumption|].
  unfold metrics, getMetrics. simpl. rewrite O. eexists. reflexivity.
Qed.

Lemma unhealthy_profile_service_opens_witness :
  state (userProfile (breakers
    (snd (serve_all no_env
            (recommend [(at_instant 0, "42"); (at_instant 1, "42"); (at_instant 2, "42");
                        (at_instant 3, "42"); (at_instant 4, "42")])
            (snd (simulate "user-profile" "slow" initial_App)))))) = OPEN.
Proof.
  apply (unhealthy_profile_service_opens no_env
           [(at_instant 0, "42"); (at_instant 1, "42"); (at_instant 2, "42");
            (at_instant 3, "42"); (at_instant 4, "42")]
           (snd (simulate "user-profile" "slow" initial_App))).
  - left. reflexivity.
  - vm_compute. reflexivity.
  - reflexivity.
  - discriminate.
  - vm_compute. discriminate.
Defined.

(** X13.  With both breakers OPEN and cooling down, a request is served
    without calling either service: the answer is the degraded one, 200
    with the trending list and both services named, and the application,
    breakers included, is left exactly as it was. *)
Theorem both_open_served_from_trending env clock userId app :
  state (userProfile (breakers app)) = OPEN ->
  state (content (breakers app)) = OPEN ->
  profile_entry clock - to_number (lastFailureTime (userProfile (breakers app)))
    <= openDuration (userProfile (breakers app)) ->
  content_entry clock - to_number (lastFailureTime (content (breakers app)))
    <= openDuration (content (breakers app)) ->
  getRecommendations env clock userId app =
  (res_json (JObj
     [ ("message", JStr "Our recommendation service is temporarily degraded. Here are some trending movies.");
       ("trending", JArr [ JObj [ ("movieId", JNum 99);
                                  ("title", JStr "Trending Movie 1") ] ]);
       ("fallback_triggered_for", JStr "user-profile-service, content-service") ]),
   app).
Proof.
  intros Sp Sc Cp Cc. rewrite getRecommendations_eq.
  unfold profile_call, catalog_call, execute.
  rewrite (admission_OPEN_cooling _ _ Sp Cp), (admission_OPEN_cooling _ _ Sc Cc).
  cbn [fst snd]. rewrite Sp, Sc.
  destruct app as [[bp bc] ss]. reflexivity.
Qed.

Lemma both_open_served_from_trending_witness :
  let app := request 4 (request 3 (request 2 (request 1 (request 0
               (snd (simulate "content" "fail"
                  (snd (simulate "user-profile" "fail" initial_App)))))))) in
  snd (getRecommendations no_env (at_instant 30004) "42" app) = app.
Proof.
  cbv zeta.
  rewrite (both_open_served_from_trending no_env (at_instant 30004) "42");
    first [reflexivity | vm_compute; discriminate].
Defined.

Section FailedCall.

Context {W A : Type}.
Implicit Types (fn : W -> settlement A * W).

(** X14.  The cool-down runs from the last recorded failure.  When a call
    that was let through fails and leaves the breaker OPEN, be it the
    failure that trips a CLOSED breaker or a failed trial, every call
    entering within [openDuration] of the instant of that failure is
    rejected and leaves the breaker as it is. *)
Theorem failure_restarts_cool_down now later fn b b1 b' w w' e :
  admission now b = Return b1 ->
  execute now later fn b w = (Throw e, b', w') ->
  state b' = OPEN ->
  forall (now' later' : Z) (fn' : W -> settlement A * W) (w'' : W),
    now' - later <= openDuration b ->
    execute now' later' fn' b' w'' = (Throw (circuit_open_error b), b', w'').
Proof.
  intros G E O now' later' fn' w'' H.
  pose proof (execute_config now later fn b w) as C. rewrite E in C. simpl in C.
  apply execute_inv in E. rewrite G in E.
  destruct E as [(E & _) | (b2 & E & _ & [(v & _ & E' & _) | (e' & _ & _ & ->)])];
    try discriminate.
  inversion E; subst b2.
  unfold execute. rewrite admission_OPEN_cooling.
  - unfold circuit_open_error. destruct C as (-> & _). reflexivity.
  - assumption.
  - rewrite onFailure_lastFailureTime. simpl.
    destruct C as (_ & _ & _ & _ & _ & -> & _). assumption.
Qed.

End FailedCall.

Lemma failure_restarts_cool_down_witness :
  execute 70002 70002 (fn (ok_call 70002))
    (breaker_after [failing_call 40002] on_probation tt) tt =
  (Throw (circuit_open_error on_probation),
   breaker_after [failing_call 40002] on_probation tt, tt).
Proof.
  apply (failure_restarts_cool_down 40002 40002 (fn (failing_call 40002))
           on_probation on_probation
           (breaker_after [failing_call 40002] on_probation tt) tt tt
           (Error "Service Error - 500")).
  - reflexivity.
  - reflexivity.
  - reflexivity.
  - vm_compute. discriminate.
Defined.

(** ** The application over any sequence of requests *)

Lemma App_ok_initial : App_ok initial_App.
Proof.
  unfold App_ok, recognised. simpl.
  repeat split; auto; try (apply same_config_refl);
    unfold history_bounded; vm_compute; discriminate.
Qed.

Lemma execute_history_bounded {W A : Type} now later (fn : W -> settlement A * W) b w :
  history_bounded b -> history_bounded (snd (fst (execute now later fn b w))).
Proof.
  intros H. eapply reachable_history_bounded; [eassumption | apply execute_reachable].
Qed.

Lemma serve_App_ok env r app :
  App_ok app ->
  App_ok (snd (serve env r app)) /\
  (status (fst (serve env r app)) = 200 \/ status (fst (serve env r app)) = 400) /\
  (status (fst (serve env r app)) = 400 <->
   exists service behavior,
     r = POST_simulate service behavior /\ ~ (simulated service /\ recognised behavior)).
Proof.
  intros (Rp & Rc & Cp & Cc & Hp & Hc).
  destruct r as [|service behavior|clock userId|]; simpl.
  - split; [unfold App_ok; auto 10|]. split; [auto|].
    split; [discriminate | intros (s & b & E & _); discriminate E].
  - pose proof (simulate_cases service behavior app) as [Hv Hi]. cbv zeta in *.
    destruct (existsb (String.eqb service) ["user-profile"; "content"]
              && existsb (String.eqb behavior) ["normal"; "slow"; "fail"])%bool eqn:V.
    + apply andb_true_iff in V. destruct V as [Vs Vb].
      apply simulated_existsb in Vs. apply recognised_existsb in Vb.
      destruct (Hv (conj Vs Vb)) as (St & Br & Hup & Hco).
      split; [|split; [auto|]].
      * unfold App_ok. rewrite Br.
        destruct Vs as [-> | ->].
        -- destruct (Hup eq_refl) as [-> ->]. auto 10.
        -- destruct (Hco eq_refl) as [-> ->]. auto 10.
      * rewrite St. split; [discriminate|].
        intros (s & b & E & N). inversion E; subst. tauto.
    + assert (N : ~ (simulated service /\ recognised behavior)).
      { intros [Vs Vb]. apply simulated_existsb in Vs. apply recognised_existsb in Vb.
        rewrite Vs, Vb in V. discriminate V. }
      destruct (Hi N) as [St ->].
      split; [unfold App_ok; auto 10|]. split; [auto|].
      split; [eauto|auto].
  - rewrite getRecommendations_eq. cbn [fst snd]. split; [|split; [auto|]].
    + unfold App_ok. cbn [breakers serviceStates userProfile content].
      unfold profile_call, catalog_call.
      split; [exact Rp|]. split; [exact Rc|].
      split; [eapply same_config_trans; [exact Cp | apply execute_config]|].
      split; [eapply same_config_trans; [exact Cc | apply execute_config]|].
      split; apply execute_history_bounded; assumption.
    + simpl. split; [discriminate | intros (s & b & E & _); discriminate E].
  - unfold metrics, getMetrics. simpl. split; [unfold App_ok; simpl; auto 10|].
    split; [auto|]. split; [discriminate | intros (s & b & E & _); discriminate E].
Qed.

(** X15.  Whatever is asked of the service, in any order: every request
    is answered 200, except a [POST /simulate] with an unknown service or
    behaviour, which is answered 400 (never 500); the simulated
    behaviours stay among normal, slow and fail; and both breakers keep
    the configuration they were created with and a history within their
    window. *)
Theorem service_stays_well_formed env (rs : list HttpRequest) : forall app,
  App_ok app ->
  App_ok (snd (serve_all env rs app)) /\
  Forall2 (fun r res =>
             (status res = 200 \/ status res = 400) /\
             (status res = 400 <->
              exists service behavior,
                r = POST_simulate service behavior /\
                ~ (simulated service /\ recognised behavior)))
          rs (fst (serve_all env rs app)).
Proof.
  induction rs as [|r rs IH]; intros app OK; simpl.
  - split; [assumption | constructor].
  - destruct (serve_App_ok env r app OK) as (OK1 & S1 & S2).
    destruct (serve env r app) as [res app1]. simpl in *.
    destruct (IH app1 OK1) as (OK2 & F).
    destruct (serve_all env rs app1) as [ress app2]. simpl in *.
    split; [assumption|]. constructor; auto.
Qed.

Lemma service_stays_well_formed_witness :
  App_ok (snd (serve_all no_env
                 [POST_simulate "content" "fail"; GET_recommendations (at_instant 0) "42";
                  POST_simulate "content" "broken"; GET_metrics; GET_health]
                 initial_App)).
Proof.
  apply (service_stays_well_formed no_env
           [POST_simulate "content" "fail"; GET_recommendations (at_instant 0) "42";
            POST_simulate "content" "broken"; GET_metrics; GET_health] initial_App).
  exact App_ok_initial.
Defined.

(** * Further properties: what does not open or degrade the service *)

Lemma len_pushed ok b : len (pushed ok b) <= len (requestHistory b) + 1.
Proof.
  unfold pushed, record_outcome; simpl.
  set (h := requestHistory b).
  destruct (_ >? _).
  - destruct h as [|x h]; simpl.
    + change (len []) with 0. lia.
    + unfold len. rewrite length_app. simpl List.length. lia.
  - rewrite len_app. change (len [ {| success := ok |} ]) with 1. lia.
Qed.

Section NoEarlyTrip.

Context {W A : Type}.
Implicit Types (calls : list (Call W A)).

(** X16.  The circuit does not open early: a CLOSED breaker stays CLOSED
    through any sequence of calls, however many of them fail, that is too
    short for the consecutive failures to reach [failureThreshold] and
    for the history to fill the window. *)
Theorem no_early_trip calls : forall b w,
  state b = CLOSED ->
  Z.of_N (failureCount b) + Z.of_nat (List.length calls) < failureThreshold b ->
  len (requestHistory b) + Z.of_nat (List.length calls) < failureRateWindow b ->
  state (breaker_after calls b w) = CLOSED.
Proof.
  unfold breaker_after.
  induction calls as [|c calls IH]; intros b w S T Wd; simpl.
  - assumption.
  - pose proof (execute_config (at_entry c) (at_failure c) (fn c) b w) as C.
    destruct (execute _ _ _ b w) as [[r b1] w1] eqn:E. simpl in C.
    specialize (IH b1 w1).
    destruct (run calls b1 w1) as [[rs b2] w2]; simpl in *.
    destruct C as (_ & _ & CT & _ & CW & _).
    destruct r as [v|e].
    + apply execute_Return_not_OPEN in E; [|congruence]. subst b1.
      destruct (onSuccess_CLOSED b S) as [S1 F1].
      pose proof (len_pushed true b) as L. rewrite <- onSuccess_history in L.
      apply IH; [assumption | rewrite F1, CT; lia | rewrite CW; lia].
    + apply execute_Throw_not_OPEN in E; [|congruence]. subst b1.
      pose proof (len_pushed false b) as L.
      rewrite <- (onFailure_history (at_failure c)) in L.
      pose proof (onFailure_failureCount (at_failure c) b) as F1.
      destruct (onFailure_CLOSED (at_failure c) b S) as [Hiff [Ho|Hc]].
      * exfalso. apply Hiff in Ho. rewrite F1 in Ho.
        destruct Ho as [Ho | [Ho _]]; lia.
      * apply IH; [assumption | rewrite F1, CT; lia | rewrite CW; lia].
Qed.

End NoEarlyTrip.

Lemma no_early_trip_witness :
  state (breaker_after [failing_call 0; failing_call 1; failing_call 2; failing_call 3]
           fresh tt) = CLOSED.
Proof.
  apply (no_early_trip [failing_call 0; failing_call 1; failing_call 2; failing_call 3]
           fresh tt).
  - reflexivity.
  - vm_compute. reflexivity.
  - vm_compute. reflexivity.
Defined.

(** X17.  The healthy path.  When neither service is simulated slow or
    failing and neither breaker is OPEN, the request is answered with the
    data of the two services and no annotation, and neither breaker is
    OPEN afterwards; a CLOSED breaker is left CLOSED with no consecutive
    failure. *)
Theorem healthy_request env clock userId app :
  user_profile_service (serviceStates app) <> "slow" ->
  user_profile_service (serviceStates app) <> "fail" ->
  content_service (serviceStates app) <> "slow" ->
  content_service (serviceStates app) <> "fail" ->
  state (userProfile (breakers app)) <> OPEN ->
  state (content (breakers app)) <> OPEN ->
  let res := fst (getRecommendations env clock userId app) in
  let app' := snd (getRecommendations env clock userId app) in
  res = res_json (JObj [ ("userPreferences", mock_data "user");
                         ("recommendations", mock_data "movies") ]) /\
  state (userProfile (breakers app')) <> OPEN /\
  state (content (breakers app')) <> OPEN /\
  (state (userProfile (breakers app)) = CLOSED ->
     state (userProfile (breakers app')) = CLOSED /\
     failureCount (userProfile (breakers app')) = 0%N) /\
  (state (content (breakers app)) = CLOSED ->
     state (content (breakers app')) = CLOSED /\
     failureCount (content (breakers app')) = 0%N).
Proof.
  intros Ps Pf Cs Cf Sp Sc. cbv zeta.
  rewrite getRecommendations_eq. cbn [fst snd breakers userProfile content].
  unfold profile_call, catalog_call, execute.
  rewrite (admission_not_OPEN _ _ Sp), (admission_not_OPEN _ _ Sc).
  destruct (race_mockServiceCall
              (env_or (USER_PROFILE_URL env) "http://user-profile-service:8081")
              (user_profile_service (serviceStates app)) "user"
              (timeout (userProfile (breakers app)))) as (_ & _ & Rp).
  destruct (race_mockServiceCall
              (env_or (CONTENT_URL env) "http://content-service:8082")
              (content_service (serviceStates app)) "movies"
              (timeout (content (breakers app)))) as (_ & _ & Rc).
  rewrite (Rp Ps Pf), (Rc Cs Cf). cbn [fst snd].
  pose proof (onSuccess_not_OPEN _ Sp) as Op.
  pose proof (onSuccess_not_OPEN _ Sc) as Oc.
  split.
  - destruct (state (onSuccess (userProfile (breakers app)))),
             (state (onSuccess (content (breakers app)))); try congruence; reflexivity.
  - split; [assumption|]. split; [assumption|].
    split; intros S; apply onSuccess_CLOSED; assumption.
Qed.

Lemma healthy_request_witness :
  fst (getRecommendations no_env (at_instant 0) "42" initial_App) =
  res_json (JObj [ ("userPreferences", mock_data "user");
                   ("recommendations", mock_data "movies") ]).
Proof.
  apply (healthy_request no_env (at_instant 0) "42" initial_App); discriminate.
Defined.

(** * Further properties: construction *)

Lemma or_default_spec o d :
  (o = None \/ o = Some 0 -> or_default o d = d) /\
  (forall v, o = Some v -> v <> 0 -> or_default o d = v) /\
  (d <> 0 -> or_default o d <> 0).
Proof.
  unfold or_default. split; [|split].
  - intros [-> | ->]; reflexivity.
  - intros v -> N. destruct v; congruence.
  - intros N. destruct o as [[|p|p]|]; try assumption; discriminate.
Qed.

Lemma or_default_takes_default o d : takes_default o d (or_default o d).
Proof.
  destruct (or_default_spec o d) as (H1 & H2 & _). split; assumption.
Qed.

(** X18.  A new breaker is CLOSED with nothing recorded.  Each of its six
    options takes its default when it is absent or zero (2000 for the
    time-out, 5 for the failure threshold, 50 for the rate threshold, 10
    for the window, 30000 for the cool-down, 3 for the trials) and is
    kept otherwise, so no breaker is built with a zero in its
    configuration.  Its first call is always let through, and invoked
    once. *)
Theorem new_breaker nm options :
  let b := new_CircuitBreaker nm options in
  (name b = nm /\ state b = CLOSED /\ requestHistory b = [] /\
   lastFailureTime b = None /\
   failureCount b = 0%N /\ successCount b = 0%N /\ trialCount b = 0%N) /\
  (takes_default (opt_timeout options) 2000 (timeout b) /\
   takes_default (opt_failureThreshold options) 5 (failureThreshold b) /\
   takes_default (opt_failureRateThreshold options) 50 (failureRateThreshold b) /\
   takes_default (opt_failureRateWindow options) 10 (failureRateWindow b) /\
   takes_default (opt_openDuration options) 30000 (openDuration b) /\
   takes_default (opt_halfOpenTrials options) 3 (halfOpenTrials b)) /\
  (timeout b <> 0 /\ failureThreshold b <> 0 /\ failureRateThreshold b <> 0 /\
   failureRateWindow b <> 0 /\ openDuration b <> 0 /\ halfOpenTrials b <> 0) /\
  (forall (A : Type) (p : settlement A) (now later : Z) (n : nat),
     snd (execute now later (counting p) b n) = S n).
Proof.
  cbv zeta. split; [|split; [|split]].
  - simpl. repeat split.
  - repeat (split; [apply or_default_takes_default|]).
    apply or_default_takes_default.
  - cbn [new_CircuitBreaker timeout failureThreshold failureRateThreshold
         failureRateWindow openDuration halfOpenTrials].
    repeat (split; [apply or_default_spec; discriminate|]).
    apply or_default_spec; discriminate.
  - intros A p now later n. rewrite execute_counting. reflexivity.
Qed.

Lemma new_breaker_witness :
  failureRateWindow
    (new_CircuitBreaker "content"
       {| opt_timeout := None; opt_failureThreshold := None;
          opt_failureRateThreshold := None; opt_failureRateWindow := Some 0;
          opt_openDuration := None; opt_halfOpenTrials := Some 7 |}) = 10 /\
  halfOpenTrials
    (new_CircuitBreaker "content"
       {| opt_timeout := None; opt_failureThreshold := None;
          opt_failureRateThreshold := None; opt_failureRateWindow := Some 0;
          opt_openDuration := None; opt_halfOpenTrials := Some 7 |}) = 7.
Proof.
  destruct (new_breaker "content"
              {| opt_timeout := None; opt_failureThreshold := None;
                 opt_failureRateThreshold := None; opt_failureRateWindow := Some 0;
                 opt_openDuration := None; opt_halfOpenTrials := Some 7 |})
    as (_ & (_ & _ & _ & Hw & _ & Ht) & _).
  split.
  - apply (proj1 Hw). right. reflexivity.
  - apply (proj2 Ht 7); [reflexivity | discriminate].
Defined.
